(** * A shallow embedding of the validated form flow and the shared counter store

    Sources embedded here:
    - [src/app/components/store.ts]: the zustand store [useStore];
    - [src/app/components/ReactHookFormExample.tsx]: [calculateAge], the zod
      [schema], the debounced [checkEmailAvailability], [handleEmailChange]
      and [onSubmit] of the registration form;
    - the refactoring notes ([privacySettingsSchema] and
      [PrivacySettingsForm]): the second, simplified form variant.

    JavaScript values are modelled as the code has them: [undefined], booleans,
    strings and numbers with [NaN]; objects used as records are finite maps
    from field name to value. *)

From Stdlib Require Import ZArith QArith Qcanon Lia Bool List Ascii String.
From stdpp Require Import base numbers strings gmap list.

Local Open Scope Z_scope.
#[local] Set Warnings "-clear-no-such-hyp".

(** ** JavaScript numbers on the integers

    A [number] is an IEEE-754 double.  Every integer of magnitude at most
    [2^53] is a double; beyond that an integer result is rounded to the nearest
    double, ties to the even significand.  [double_round] is that rounding on
    integer results (finite range; [Infinity] is out of reach of the code
    embedded here). *)

Definition double_round (z : Z) : Z :=
  let a := Z.abs z in
  let e := Z.log2 a - 52 in
  if e <=? 0 then z
  else
    let ulp := 2 ^ e in
    let q := a / ulp in
    let r := a mod ulp in
    let half := ulp / 2 in
    let q' := if r <? half then q
              else if half <? r then q + 1
              else if Z.even q then q else q + 1 in
    Z.sgn z * (q' * ulp).

Definition MAX_SAFE_INTEGER : Z := 2 ^ 53 - 1.

(** ** The shared counter store ([store.ts]) *)

Module Store.

(** The data fields of [interface Store]; the three methods are the
    functions below. *)
Record Store := { count : Z; text : string }.

(** [create<Store>((set) => ({ count: 0, text: "", ... }))] *)
Definition useStore : Store := {| count := 0; text := "" |}.

(** [set(partial)] merges the partial object into the state: a field the
    partial object does not name keeps its value. *)

(** [increment: () => set((state) => ({ count: state.count + 1 }))] *)
Definition increment (state : Store) : Store :=
  {| count := double_round (count state + 1); text := text state |}.

(** [decrement: () => set((state) => ({ count: state.count - 1 }))] *)
Definition decrement (state : Store) : Store :=
  {| count := double_round (count state - 1); text := text state |}.

(** [setText: (text: string) => set({ text })] *)
Definition setText (t : string) (state : Store) : Store :=
  {| count := count state; text := t |}.

(** The actions a consumer of the store can perform. *)
Inductive Action := Increment | Decrement | SetText (t : string).

Definition dispatch (a : Action) (state : Store) : Store :=
  match a with
  | Increment => increment state
  | Decrement => decrement state
  | SetText t => setText t state
  end.

Definition run (acts : list Action) (state : Store) : Store :=
  fold_left (fun s a => dispatch a s) acts state.

End Store.

(** ** Dates

    A [Date] object is read by the code only through [getFullYear],
    [getMonth] (0-based) and [getDate], all in local time.  An invalid date
    answers [NaN] to each of them. *)

Record DateFields := {
  fullYear : Z;
  month : Z;       (* 0 .. 11 *)
  date : Z;        (* 1 .. 31 *)
  timeOfDay : Z    (* milliseconds since local midnight *)
}.

Inductive JSDate := InvalidDate | ValidDate (f : DateFields).

(** Integer-valued numbers with [NaN]: [None] is [NaN]. *)
Definition Num := option Z.

Definition getFullYear (d : JSDate) : Num :=
  match d with InvalidDate => None | ValidDate f => Some (fullYear f) end.
Definition getMonth (d : JSDate) : Num :=
  match d with InvalidDate => None | ValidDate f => Some (month f) end.
Definition getDate (d : JSDate) : Num :=
  match d with InvalidDate => None | ValidDate f => Some (date f) end.

(** Arithmetic and comparison with [NaN]: [NaN] propagates through [-] and
    [Math.abs]; every comparison with [NaN] is [false]. *)
Definition num_sub (a b : Num) : Num :=
  match a, b with Some x, Some y => Some (x - y) | _, _ => None end.
Definition num_abs (a : Num) : Num := Z.abs <$> a.
Definition num_lt (a b : Num) : bool :=
  match a, b with Some x, Some y => x <? y | _, _ => false end.
Definition num_ge (a b : Num) : bool :=
  match a, b with Some x, Some y => y <=? x | _, _ => false end.
Definition num_seq (a b : Num) : bool :=
  match a, b with Some x, Some y => x =? y | _, _ => false end.

Declare Scope num_scope.
Delimit Scope num_scope with num.
Infix "-" := num_sub : num_scope.
Infix "<" := num_lt : num_scope.
Infix ">=" := num_ge : num_scope.
Infix "===" := num_seq (at level 70) : num_scope.

(** ** JavaScript values held by a form field *)

Inductive JSNumber := NaN | Infinity (negative : bool) | Finite (q : Qc).

Inductive JSValue :=
| JUndefined
| JNull
| JBool (b : bool)
| JNumber (n : JSNumber)
| JString (s : string).

(** [a === b] on these values; [NaN] differs from itself. *)
Definition strict_equal (a b : JSValue) : bool :=
  match a, b with
  | JUndefined, JUndefined | JNull, JNull => true
  | JBool x, JBool y => Bool.eqb x y
  | JString x, JString y => bool_decide (x = y)
  | JNumber (Finite x), JNumber (Finite y) => bool_decide (x = y)
  | JNumber (Infinity x), JNumber (Infinity y) => Bool.eqb x y
  | _, _ => false
  end.

Definition is_undefined (v : JSValue) : bool :=
  match v with JUndefined => true | _ => false end.

(** zod's [getParsedType], as it is printed in messages. *)
Definition parsedType (v : JSValue) : string :=
  match v with
  | JUndefined => "undefined"
  | JNull => "null"
  | JBool _ => "boolean"
  | JNumber NaN => "nan"
  | JNumber _ => "number"
  | JString _ => "string"
  end.

(** A form's value record and its error record: objects keyed by field name.
    A key that is absent reads as [undefined]. *)
Abbreviation FormValues := (gmap string JSValue).
Abbreviation FieldErrors := (gmap string string).

Definition read (data : FormValues) (key : string) : JSValue :=
  default JUndefined (data !! key).

(** ** The fragment of zod the two schemas use *)

Module Zod.

Inductive StringCheck :=
| min (n : nat) (message : string)     (* [nonempty(m)] is [min(1, m)] *)
| email (message : string).

Inductive NumberCheck :=
| positive (message : string)
| int.

Inductive ZodType :=
| ZodString (checks : list StringCheck)
| ZodNumber (checks : list NumberCheck)
| ZodBoolean
| ZodEnum (values : list string) (errorMap : option string)
| ZodLiteral (value : bool)            (* [z.literal(true)] *)
| ZodOptional (innerType : ZodType)
| ZodDefault (innerType : ZodType) (defaultValue : JSValue)
| ZodEffects (schema : ZodType) (refinement : JSValue -> bool) (message : string).

(** The parse status of zod: [aborted] stops refinements of the same
    field, [dirty] records a failed check and goes on. *)
Inductive ParseStatus := valid | dirty | aborted.

Record ParseReturn := {
  status : ParseStatus;
  value : JSValue;
  issues : list string    (* the messages of the issues added, in order *)
}.

Definition OK (v : JSValue) : ParseReturn :=
  {| status := valid; value := v; issues := [] |}.
Definition INVALID (msgs : list string) : ParseReturn :=
  {| status := aborted; value := JUndefined; issues := msgs |}.

(** The default error map for [invalid_type]. *)
Definition invalid_type (expected : string) (input : JSValue) : string :=
  match input with
  | JUndefined => "Required"
  | _ => "Expected " +:+ expected +:+ ", received " +:+ parsedType input
  end.

(** [util.joinValues]: ['a' | 'b']. *)
Fixpoint joinValues (vs : list string) : string :=
  match vs with
  | [] => ""
  | [v] => "'" +:+ v +:+ "'"
  | v :: rest => "'" +:+ v +:+ "' | " +:+ joinValues rest
  end.

Definition invalid_enum_value (options : list string) (received : string) : string :=
  "Invalid enum value. Expected " +:+ joinValues options +:+ ", received '" +:+ received +:+ "'".

(** A schema-level [errorMap] replaces the message of every issue. *)
Definition with_errorMap (errorMap : option string) (message : string) : string :=
  default message errorMap.

Definition isInteger (n : JSNumber) : bool :=
  match n with
  | Finite q => bool_decide (Qden (this q) = 1%positive)
  | _ => false
  end.

(** [n > 0] *)
Definition gt_zero (n : JSNumber) : bool :=
  match n with
  | Finite q => bool_decide (0 < q)%Qc
  | Infinity negative => negb negative
  | NaN => false
  end.

Section Parse.
(** The pattern behind [z.string().email()]. *)
Variable emailRegex : string -> bool.

(** [s.length < n] is only asked with [n = 1], where the length in bytes
    and the length in UTF-16 units agree. *)
Definition string_check (s : string) (c : StringCheck) : list string :=
  match c with
  | min n message => if (String.length s <? n)%nat then [message] else []
  | email message => if emailRegex s then [] else [message]
  end.

Definition number_check (n : JSNumber) (c : NumberCheck) : list string :=
  match c with
  | positive message => if gt_zero n then [] else [message]
  | int => if isInteger n then [] else ["Expected integer, received float"]
  end.

(** Every check of a string or number schema runs; a failed one adds its
    issue and makes the status dirty. *)
Definition checked (v : JSValue) (msgs : list string) : ParseReturn :=
  {| status := if msgs is [] then valid else dirty; value := v; issues := msgs |}.

Fixpoint parse (t : ZodType) (input : JSValue) : ParseReturn :=
  match t with
  | ZodString checks =>
      match input with
      | JString s => checked input (concat (map (string_check s) checks))
      | _ => INVALID [invalid_type "string" input]
      end
  | ZodNumber checks =>
      match input with
      | JNumber NaN => INVALID [invalid_type "number" input]
      | JNumber n => checked input (concat (map (number_check n) checks))
      | _ => INVALID [invalid_type "number" input]
      end
  | ZodBoolean =>
      match input with
      | JBool _ => OK input
      | _ => INVALID [invalid_type "boolean" input]
      end
  | ZodEnum values errorMap =>
      match input with
      | JString s =>
          if bool_decide (s ∈ values) then OK input
          else INVALID [with_errorMap errorMap (invalid_enum_value values s)]
      | _ => INVALID [with_errorMap errorMap (invalid_type (joinValues values) input)]
      end
  | ZodLiteral v =>
      if strict_equal input (JBool v) then OK input
      else INVALID ["Invalid literal value, expected " +:+ (if v then "true" else "false")]
  | ZodOptional inner =>
      match input with
      | JUndefined => OK JUndefined
      | _ => parse inner input
      end
  | ZodDefault inner defaultValue =>
      match input with
      | JUndefined => parse inner defaultValue
      | _ => parse inner input
      end
  | ZodEffects inner refinement message =>
      let r := parse inner input in
      match status r with
      | aborted => INVALID (issues r)
      | _ =>
          if refinement (value r) then r
          else {| status := dirty; value := value r;
                  issues := issues r ++ [message] |}
      end
  end.

(** *** Object schemas *)

(** The shape of a [z.object], in declaration order. *)
Definition Shape := list (string * ZodType).

Record ZodIssue := { path : string; message : string }.

Definition parse_key (data : FormValues) (kt : string * ZodType) : ParseReturn :=
  parse kt.2 (read data kt.1).

Definition key_issues (data : FormValues) (kt : string * ZodType) : list ZodIssue :=
  map (fun m => {| path := kt.1; message := m |}) (issues (parse_key data kt)).

(** [ParseStatus.mergeObjectSync]: aborted if a key aborted, else dirty if
    a key is dirty. *)
Definition merge_status (a b : ParseStatus) : ParseStatus :=
  match a, b with
  | aborted, _ | _, aborted => aborted
  | dirty, _ | _, dirty => dirty
  | valid, valid => valid
  end.

Definition object_status (shape : Shape) (data : FormValues) : ParseStatus :=
  fold_left (fun st kt => merge_status st (status (parse_key data kt))) shape valid.

(** Every key of the shape is parsed, whatever the other keys did; the
    issues come in shape order. *)
Definition object_issues (shape : Shape) (data : FormValues) : list ZodIssue :=
  concat (map (key_issues data) shape).

(** The output object: unknown keys are stripped, a key is set when it
    was in the input or parsed to something other than [undefined]. *)
Definition object_value (shape : Shape) (data : FormValues) : FormValues :=
  fold_left
    (fun out kt =>
       let v := value (parse_key data kt) in
       if negb (is_undefined v) || bool_decide (is_Some (data !! kt.1))
       then <[kt.1 := v]> out else out)
    shape ∅.

Inductive SafeParseReturn :=
| SafeParseSuccess (data : FormValues)
| SafeParseError (error : list ZodIssue).

Definition safeParse (shape : Shape) (data : FormValues) : SafeParseReturn :=
  match object_status shape data with
  | valid => SafeParseSuccess (object_value shape data)
  | _ => SafeParseError (object_issues shape data)
  end.

End Parse.

End Zod.

(** ** The two forms *)

(** [!x]: the falsy values are [undefined], [null], [false], [0], [NaN]
    and the empty string. *)
Definition truthy (v : JSValue) : bool :=
  match v with
  | JUndefined | JNull => false
  | JBool b => b
  | JNumber NaN => false
  | JNumber (Finite q) => negb (bool_decide (q = 0%Qc))
  | JNumber (Infinity _) => true
  | JString s => negb (bool_decide (s = ""))
  end.

(** A refinement declared on a string schema receives a string. *)
Definition on_string (f : string -> bool) (v : JSValue) : bool :=
  match v with JString s => f s | _ => false end.

(** [(val) => val === true] *)
Definition is_true (val : JSValue) : bool := strict_equal val (JBool true).

Inductive Form := RegistrationForm | PrivacySettingsForm.

(** The inputs a form's JSX passes to [register], by kind. *)
Inductive InputKind :=
| TextInput
| DateInput
| NumberInput                        (* [valueAsNumber: true] *)
| SelectInput (options : list string)
| CheckboxInput
| RadioInput (options : list string).

(** What an untouched input of the DOM holds, as [register] reads it: the
    empty string, [NaN] for an empty number input read as a number, the first
    option of a select, [false] for an unticked box, [null] for a radio group
    with no button checked. *)
Definition initialValue (k : InputKind) : JSValue :=
  match k with
  | TextInput | DateInput => JString ""
  | NumberInput => JNumber NaN
  | SelectInput options => JString (hd "" options)
  | CheckboxInput => JBool false
  | RadioInput _ => JNull
  end.

(** The [register] calls of the two forms, in the order of the JSX. *)
Definition registered (f : Form) : list (string * InputKind) :=
  match f with
  | RegistrationForm => [
      ("name", TextInput);
      ("email", TextInput);
      ("date_of_birth", DateInput);
      ("age", NumberInput);
      ("gender", SelectInput [""; "male"; "female"]);
      ("termsAccepted", CheckboxInput);
      ("privacyPolicyAccepted", CheckboxInput);
      ("privacySetting", RadioInput ["public"; "private"; "protected"])
    ]
  | PrivacySettingsForm => [
      ("name", TextInput);
      ("email", TextInput);
      ("birthDate", DateInput);
      ("privacy", SelectInput ["public"; "private"; "protected"]);
      ("termsAccepted", CheckboxInput)
    ]
  end.

(** [defaultValues] of the two [useForm] calls. *)
Definition defaultValues (f : Form) : FormValues :=
  match f with
  | RegistrationForm => {[ "privacySetting" := JString "public" ]}
  | PrivacySettingsForm => {[ "privacy" := JString "public" ]}
  end.

(** Mounting the inputs: react-hook-form gives every registered field an
    entry in the value record; a field with a default value keeps it, one
    without takes the value of its input. *)
Definition mount (inputs : list (string * InputKind)) (v : FormValues) : FormValues :=
  fold_left
    (fun v input =>
       if is_undefined (read v input.1) then <[input.1 := initialValue input.2]> v else v)
    inputs v.

(** The value record of a freshly mounted form. *)
Definition initialValues (f : Form) : FormValues := mount (registered f) (defaultValues f).

Inductive ValidationResult :=
| Valid (record : FormValues)
| Invalid (errors : FieldErrors).

(** What a request to the remote service comes back with. *)
Inductive Settled (A : Type) := Resolved (data : A) | Rejected.
Arguments Resolved {A} data.
Arguments Rejected {A}.

Inductive Request :=
| GET_check_email (email : string)
| POST_users (data : FormValues).

(** The state of one mounted form component.  [render] counts the renders so
    far; the component body runs once per render, so it also names the
    debounced function created by the current render.  [pending] holds, for
    each debounced function whose timer is running, the time and the argument
    of its last call. *)
Record FormState := {
  values : FormValues;
  errors : FieldErrors;
  emailTaken : option bool;        (* [useState<boolean | null>(null)] *)
  render : nat;
  pending : gmap nat (Z * string);
  requests : list Request;         (* every request issued, in order *)
  settled : gset nat;              (* the requests that have come back *)
  console : list string;
  now : Z                          (* milliseconds *)
}.

Definition set_values (v : FormValues) (st : FormState) : FormState :=
  {| values := v; errors := errors st; emailTaken := emailTaken st;
     render := render st; pending := pending st; requests := requests st;
     settled := settled st; console := console st; now := now st |}.
Definition set_errors (e : FieldErrors) (st : FormState) : FormState :=
  {| values := values st; errors := e; emailTaken := emailTaken st;
     render := render st; pending := pending st; requests := requests st;
     settled := settled st; console := console st; now := now st |}.
Definition set_pending (p : gmap nat (Z * string)) (st : FormState) : FormState :=
  {| values := values st; errors := errors st; emailTaken := emailTaken st;
     render := render st; pending := p; requests := requests st;
     settled := settled st; console := console st; now := now st |}.
Definition set_now (t : Z) (st : FormState) : FormState :=
  {| values := values st; errors := errors st; emailTaken := emailTaken st;
     render := render st; pending := pending st; requests := requests st;
     settled := settled st; console := console st; now := t |}.
Definition send (r : Request) (st : FormState) : FormState :=
  {| values := values st; errors := errors st; emailTaken := emailTaken st;
     render := render st; pending := pending st; requests := requests st ++ [r];
     settled := settled st; console := console st; now := now st |}.
Definition settle (i : nat) (st : FormState) : FormState :=
  {| values := values st; errors := errors st; emailTaken := emailTaken st;
     render := render st; pending := pending st; requests := requests st;
     settled := {[i]} ∪ settled st; console := console st; now := now st |}.
Definition log (line : string) (st : FormState) : FormState :=
  {| values := values st; errors := errors st; emailTaken := emailTaken st;
     render := render st; pending := pending st; requests := requests st;
     settled := settled st; console := console st ++ [line]; now := now st |}.
(** A state update that makes React render the component again. *)
Definition rerender (st : FormState) : FormState :=
  {| values := values st; errors := errors st; emailTaken := emailTaken st;
     render := S (render st); pending := pending st; requests := requests st;
     settled := settled st; console := console st; now := now st |}.

(** [setEmailTaken(b)]: React bails out when the state does not change. *)
Definition setEmailTaken (b : bool) (st : FormState) : FormState :=
  if bool_decide (emailTaken st = Some b) then st
  else rerender
    {| values := values st; errors := errors st; emailTaken := Some b;
       render := render st; pending := pending st; requests := requests st;
       settled := settled st; console := console st; now := now st |}.

(** The events of the UI thread; each handler runs to completion. *)
Inductive Event :=
| Input (name : string) (v : JSValue)        (* a registered input changes *)
| EmailInput (email : string)                (* [handleEmailChange] *)
| TimerFires (fn : nat)                      (* the timer of debounced function [fn] *)
| LookupSettles (i : nat) (r : Settled JSValue)   (* [isAvailable] of the response *)
| Submit (today : DateFields)                (* the form's [onSubmit] *)
| SubmitSettles (i : nat) (r : Settled string)
| Reset.

(** The lookups issued so far, oldest first. *)
Definition lookups (st : FormState) : list string :=
  omap (fun r => match r with GET_check_email e => Some e | _ => None end) (requests st).

Definition posts (st : FormState) : list FormValues :=
  omap (fun r => match r with POST_users d => Some d | _ => None end) (requests st).

Section Forms.

(** [new Date(s)] on a string, in the host's time zone. *)
Variable newDate : string -> JSDate.
(** The pattern behind [z.string().email()]. *)
Variable emailRegex : string -> bool.

(** [calculateAge]; [today] is what [new Date()] answers at the call. *)
Definition calculateAge (now_ : DateFields) (birthdate : string) : Num :=
  let today := ValidDate now_ in
  let birthDate := newDate birthdate in
  let age := (getFullYear today - getFullYear birthDate)%num in
  let monthDifference := (getMonth today - getMonth birthDate)%num in
  if (monthDifference < Some 0)%num
     || ((monthDifference === Some 0)%num && (getDate today < getDate birthDate)%num)
  then (age - Some 1)%num
  else age.

(** The registration form's [schema]. *)
Definition schema (now_ : DateFields) : Zod.Shape := [
  ("name", Zod.ZodString [Zod.min 1 "Name is required"]);
  ("email", Zod.ZodString [Zod.email "Invalid email format"]);
  ("date_of_birth",
    Zod.ZodEffects (Zod.ZodString [])
      (on_string (fun birthdate => (calculateAge now_ birthdate >= Some 18)%num))
      "You must be at least 18 years old");
  ("age", Zod.ZodOptional
            (Zod.ZodNumber [Zod.positive "Age must be a positive number"; Zod.int]));
  ("gender", Zod.ZodOptional (Zod.ZodEnum ["male"; "female"] None));
  ("termsAccepted",
    Zod.ZodEffects Zod.ZodBoolean is_true "You must accept the terms and conditions");
  ("privacyPolicyAccepted",
    Zod.ZodEffects Zod.ZodBoolean is_true "You must accept the Privacy Policy");
  ("privacySetting",
    Zod.ZodEnum ["public"; "private"; "protected"] (Some "Select a valid privacy option"))
].

(** The refinement of [privacySettingsSchema.birthDate]. *)
Definition birthDate_refinement (now_ : DateFields) (date_ : string) : bool :=
  let age := num_abs (getFullYear (ValidDate now_) - getFullYear (newDate date_))%num in
  (age >= Some 18)%num.

Definition privacySettingsSchema (now_ : DateFields) : Zod.Shape := [
  ("name", Zod.ZodString [Zod.min 1 "Name is required"]);
  ("email", Zod.ZodString [Zod.email "Invalid email format"]);
  ("birthDate",
    Zod.ZodEffects (Zod.ZodString []) (on_string (birthDate_refinement now_))
      "Age must be 18 or older");
  ("privacy",
    Zod.ZodDefault (Zod.ZodEnum ["public"; "private"; "protected"] None) (JString "public"));
  ("termsAccepted",
    Zod.ZodEffects (Zod.ZodLiteral true) is_true
      "You must accept the terms and conditions")
].

Definition schema_of (f : Form) (now_ : DateFields) : Zod.Shape :=
  match f with
  | RegistrationForm => schema now_
  | PrivacySettingsForm => privacySettingsSchema now_
  end.

(** The age rule of each form, on the birth-date string. *)
Definition age_rule (f : Form) (now_ : DateFields) (birthdate : string) : bool :=
  match f with
  | RegistrationForm => (calculateAge now_ birthdate >= Some 18)%num
  | PrivacySettingsForm => birthDate_refinement now_ birthdate
  end.

(** [zodResolver]: one message per field, the first issue of the field. *)
Definition toFieldErrors (issues : list Zod.ZodIssue) : FieldErrors :=
  fold_left
    (fun errs i =>
       match errs !! Zod.path i with
       | Some _ => errs
       | None => <[Zod.path i := Zod.message i]> errs
       end)
    issues ∅.

Definition validate (f : Form) (now_ : DateFields) (v : FormValues) : ValidationResult :=
  match Zod.safeParse emailRegex (schema_of f now_) v with
  | Zod.SafeParseSuccess data => Valid data
  | Zod.SafeParseError error => Invalid (toFieldErrors error)
  end.

(** *** The form state controller *)

Definition init (f : Form) : FormState :=
  {| values := initialValues f; errors := ∅; emailTaken := None; render := 0;
     pending := ∅; requests := []; settled := ∅; console := []; now := 0 |}.

(** A registered input's change handler, and [setValue(name, v)]. *)
Definition setField (name : string) (v : JSValue) (st : FormState) : FormState :=
  set_values (<[name := v]> (values st)) st.

(** [reset()]: the values go back to [defaultValues], the inputs of the DOM
    are reset and register again on the render that follows. *)
Definition reset (f : Form) (st : FormState) : FormState :=
  rerender (set_errors ∅ (set_values (initialValues f) st)).

(** The debounced [checkEmailAvailability(email)] of the current render:
    the call is recorded and the function's timer runs. *)
Definition checkEmailAvailability (email : string) (st : FormState) : FormState :=
  set_pending (<[render st := (now st, email)]> (pending st)) st.

(** [handleEmailChange] *)
Definition handleEmailChange (email : string) (st : FormState) : FormState :=
  checkEmailAvailability email (setField "email" (JString email) st).

(** The quiet window of [debounce(..., 1000)]. *)
Definition wait : Z := 1000.

(** The timer of debounced function [fn] expires: the function is invoked
    with its last arguments once [wait] has passed since its last call,
    and sends the lookup. *)
Definition timerExpired (fn : nat) (st : FormState) : option FormState :=
  match pending st !! fn with
  | Some (lastCallTime, lastArgs) =>
      if wait <=? now st - lastCallTime
      then Some (send (GET_check_email lastArgs) (set_pending (delete fn (pending st)) st))
      else None
  | None => None
  end.

(** The rest of the debounced body, after [await axios.get]. *)
Definition lookupSettled (r : Settled JSValue) (st : FormState) : FormState :=
  match r with
  | Resolved isAvailable => setEmailTaken (negb (truthy isAvailable)) st
  | Rejected => log "Error checking email availability:" st
  end.

(** [onSubmit] up to its [await]. *)
Definition onSubmit (f : Form) (data : FormValues) (st : FormState) : FormState :=
  match f with
  | RegistrationForm => send (POST_users data) (log "Form Data after submission:" st)
  | PrivacySettingsForm => send (POST_users data) st
  end.

(** [handleSubmit(onSubmit)] up to the [await] inside [onSubmit]. *)
Definition handleSubmit (f : Form) (now_ : DateFields) (st : FormState) : FormState :=
  match validate f now_ (values st) with
  | Invalid errs => rerender (set_errors errs st)
  | Valid data => onSubmit f data (set_errors ∅ st)
  end.

(** [onSubmit] after its [await], then the end of [handleSubmit]. *)
Definition submitSettled (f : Form) (r : Settled string) (st : FormState) : FormState :=
  rerender
    match f, r with
    | RegistrationForm, Resolved _ => reset f (log "Response:" st)
    | RegistrationForm, Rejected => log "Error submitting form:" st
    | PrivacySettingsForm, Resolved _ => log "Form submitted successfully" st
    | PrivacySettingsForm, Rejected => log "Submission failed" st
    end.

Definition is_lookup (st : FormState) (i : nat) : bool :=
  match requests st !! i with
  | Some (GET_check_email _) => bool_decide (i ∉ settled st)
  | _ => false
  end.

Definition is_post (st : FormState) (i : nat) : bool :=
  match requests st !! i with
  | Some (POST_users _) => bool_decide (i ∉ settled st)
  | _ => false
  end.

(** One event, handled at time [t]; [None] when the event cannot occur in
    the state (time running backwards, a timer that is not due, a response
    to a request that is not in flight). *)
Definition step (f : Form) (t : Z) (e : Event) (st : FormState) : option FormState :=
  if t <? now st then None
  else
    let st := set_now t st in
    match e with
    | Input name v => Some (setField name v st)
    | EmailInput email =>
        match f with
        | RegistrationForm => Some (handleEmailChange email st)
        | PrivacySettingsForm => Some (setField "email" (JString email) st)
        end
    | TimerFires fn => timerExpired fn st
    | LookupSettles i r =>
        if is_lookup st i then Some (lookupSettled r (settle i st)) else None
    | Submit today => Some (handleSubmit f today st)
    | SubmitSettles i r =>
        if is_post st i then Some (submitSettled f r (settle i st)) else None
    | Reset => Some (reset f st)
    end.

Fixpoint run (f : Form) (trace : list (Z * Event)) (st : FormState) : option FormState :=
  match trace with
  | [] => Some st
  | (t, e) :: rest =>
      match step f t e st with
      | Some st' => run f rest st'
      | None => None
      end
  end.

End Forms.

(** ** A concrete host, for running the forms

    [isoDate] is [new Date(s)] on the [YYYY-MM-DD] strings a date input
    produces, on a host whose time zone is UTC (the string denotes UTC
    midnight, read back in local time); any other string is an invalid date
    here.  [zodEmail] is zod's email pattern: a local part of letters,
    digits and [_ ' + - .] that neither starts with a dot nor ends in a dot or
    quote, an [@], one or more dot-terminated labels (a letter or digit, then
    letters, digits or hyphens) and a final label of two or more letters; no
    two dots in a row anywhere; letters of either case. *)

Module Host.

Definition digit (c : ascii) : option Z :=
  let n := Z.of_nat (nat_of_ascii c) in
  if (48 <=? n) && (n <=? 57) then Some (n - 48) else None.

Definition number (cs : list ascii) : option Z :=
  fold_left (fun acc c => a ← acc; d ← digit c; Some (10 * a + d)) cs (Some 0).

Definition leap (y : Z) : bool :=
  ((y mod 4 =? 0) && negb (y mod 100 =? 0)) || (y mod 400 =? 0).

Definition daysInMonth (y m : Z) : Z :=
  if m =? 2 then (if leap y then 29 else 28)
  else if (m =? 4) || (m =? 6) || (m =? 9) || (m =? 11) then 30
  else 31.

Definition isoDate (s : string) : JSDate :=
  match list_ascii_of_string s with
  | [y1; y2; y3; y4; dash1; m1; m2; dash2; d1; d2] =>
      match number [y1; y2; y3; y4], number [m1; m2], number [d1; d2] with
      | Some y, Some m, Some d =>
          if bool_decide (dash1 = "-"%char) && bool_decide (dash2 = "-"%char)
             && (1 <=? m) && (m <=? 12) && (1 <=? d) && (d <=? daysInMonth y m)
          then ValidDate {| fullYear := y; month := m - 1; date := d; timeOfDay := 0 |}
          else InvalidDate
      | _, _, _ => InvalidDate
      end
  | _ => InvalidDate
  end.

Definition code (c : ascii) : Z := Z.of_nat (nat_of_ascii c).

Definition letter (c : ascii) : bool :=
  ((65 <=? code c) && (code c <=? 90)) || ((97 <=? code c) && (code c <=? 122)).
Definition alnum (c : ascii) : bool :=
  letter c || ((48 <=? code c) && (code c <=? 57)).
Definition is_char (x : ascii) (c : ascii) : bool := bool_decide (c = x).

(** [[A-Z0-9_+-]] and [[A-Z0-9_'+\-\.]] *)
Definition local_last (c : ascii) : bool :=
  alnum c || is_char "_" c || is_char "+" c || is_char "-" c.
Definition local_char (c : ascii) : bool :=
  local_last c || is_char "'" c || is_char "." c.

(** Splits at every occurrence of [sep]. *)
Fixpoint split (sep : ascii) (cs : list ascii) : list (list ascii) :=
  match cs with
  | [] => [[]]
  | c :: rest =>
      if bool_decide (c = sep) then [] :: split sep rest
      else match split sep rest with
           | [] => [[c]]
           | w :: ws => (c :: w) :: ws
           end
  end.

Fixpoint double_dot (cs : list ascii) : bool :=
  match cs with
  | a :: (b :: _) as rest => (is_char "." a && is_char "." b) || double_dot rest
  | _ => false
  end.

(** [[A-Z0-9][A-Z0-9\-]*] *)
Definition label (cs : list ascii) : bool :=
  match cs with
  | [] => false
  | c :: rest => alnum c && forallb (fun x => alnum x || is_char "-" x) rest
  end.

(** [[A-Z]{2,}] *)
Definition tld (cs : list ascii) : bool :=
  (2 <=? Z.of_nat (length cs)) && forallb letter cs.

Fixpoint domain (labels : list (list ascii)) : bool :=
  match labels with
  | [] | [_] => false
  | [l; t] => label l && tld t
  | l :: rest => label l && domain rest
  end.

Definition local_part (cs : list ascii) : bool :=
  match rev cs with
  | [] => false
  | lst :: _ =>
      local_last lst && forallb local_char cs
      && negb (match cs with c :: _ => is_char "." c | [] => false end)
  end.

Definition zodEmail (s : string) : bool :=
  let cs := list_ascii_of_string s in
  match split "@" cs with
  | [loc; dom] => local_part loc && negb (double_dot cs) && domain (split "." dom)
  | _ => false
  end.

End Host.

(** ** Vocabulary of the properties *)

(** The field names a form's schema declares ([keyof FormValues]). *)
Definition declared (f : Form) : list string :=
  match f with
  | RegistrationForm =>
      ["name"; "email"; "date_of_birth"; "age"; "gender"; "termsAccepted";
       "privacyPolicyAccepted"; "privacySetting"]
  | PrivacySettingsForm => ["name"; "email"; "birthDate"; "privacy"; "termsAccepted"]
  end.

(** The declared fields that are neither optional nor defaulted. *)
Definition required (f : Form) : list string :=
  match f with
  | RegistrationForm =>
      ["name"; "email"; "date_of_birth"; "termsAccepted"; "privacyPolicyAccepted";
       "privacySetting"]
  | PrivacySettingsForm => ["name"; "email"; "birthDate"; "termsAccepted"]
  end.

(** The event type-checks: [register] and [setValue] take a declared name. *)
Definition well_typed (f : Form) (e : Event) : Prop :=
  match e with
  | Input name _ => name ∈ declared f
  | _ => True
  end.

(** FormValues has an entry for every declared field, and for nothing else. *)
Definition fields_invariant (f : Form) (v : FormValues) : Prop :=
  dom v = list_to_set (declared f).

(** The 18th birthday of [b] is on or before the day [t]. *)
Definition adult_on (t b : DateFields) : Prop :=
  fullYear b + 18 < fullYear t
  ∨ (fullYear b + 18 = fullYear t
     ∧ (month b < month t ∨ (month b = month t ∧ date b <= date t))).

(** Two schemas that differ only in refinements that agree on every input. *)
Inductive same_type : Zod.ZodType -> Zod.ZodType -> Prop :=
| same_effects t t' p p' m :
    same_type t t' -> (forall v, p v = p' v) ->
    same_type (Zod.ZodEffects t p m) (Zod.ZodEffects t' p' m)
| same_optional t t' :
    same_type t t' -> same_type (Zod.ZodOptional t) (Zod.ZodOptional t')
| same_default t t' d :
    same_type t t' -> same_type (Zod.ZodDefault t d) (Zod.ZodDefault t' d)
| same_refl t : same_type t t.

Definition same_key (a b : string * Zod.ZodType) : Prop :=
  a.1 = b.1 ∧ same_type a.2 b.2.

(** *** Sample data *)

Module Sample.

Definition day (y m d : Z) : DateFields :=
  {| fullYear := y; month := m - 1; date := d; timeOfDay := 0 |}.

(** 3 November 2026, and the same day at noon. *)
Definition today : DateFields := day 2026 11 3.
Definition noon : DateFields :=
  {| fullYear := 2026; month := 10; date := 3; timeOfDay := 43200000 |}.
Definition tomorrow : DateFields := day 2026 11 4.

(** A value record as a caller of [validate] may pass it: [age] and
    [gender] are left out. *)
Definition person (name_ email_ dob : string) (terms : bool) : FormValues :=
  <["name" := JString name_]> (<["email" := JString email_]>
  (<["date_of_birth" := JString dob]> (<["termsAccepted" := JBool terms]>
  (<["privacyPolicyAccepted" := JBool true]>
  (<["privacySetting" := JString "public"]> ∅))))).

Definition alice : FormValues := person "Alice" "a@b.com" "2000-01-01" true.
(** Eighteen on 4 November 2026. *)
Definition bob : FormValues := person "Bob" "bob@b.com" "2008-11-04" true.

(** Alice filling in every input of the registration form. *)
Definition alice_types (terms : bool) : list (Z * Event) := [
  (0, Input "name" (JString "Alice"));
  (10, Input "email" (JString "a@b.com"));
  (20, Input "date_of_birth" (JString "2000-01-01"));
  (25, Input "age" (JNumber (Finite (Q2Qc 26))));
  (28, Input "gender" (JString "female"));
  (30, Input "termsAccepted" (JBool terms));
  (35, Input "privacyPolicyAccepted" (JBool true))
].

Definition after (f : Form) (trace : list (Z * Event)) : FormState :=
  default (init f) (run Host.isoDate Host.zodEmail f trace (init f)).

(** The registration form as Alice filled it in, the terms box ticked or
    not. *)
Definition filled (terms : bool) : FormState := after RegistrationForm (alice_types terms).

(** The same, submitted, the POST in flight. *)
Definition submitted : FormState :=
  after RegistrationForm (alice_types true ++ [(40, Submit today)]).

(** The registration form with the lookup of [a@b.com] in flight. *)
Definition looking_up : FormState :=
  send (GET_check_email "a@b.com") (init RegistrationForm).

(** The privacy-settings form, filled in and submitted; the service
    answers with success. *)
Definition privacy_trace : list (Z * Event) := [
  (0, Input "name" (JString "Alice"));
  (10, Input "email" (JString "a@b.com"));
  (20, Input "birthDate" (JString "2000-01-01"));
  (30, Input "termsAccepted" (JBool true));
  (40, Submit today);
  (90, SubmitSettles 0 (Resolved "created"))
].

(** The registration form, filled in and submitted likewise. *)
Definition registration_trace (r : Settled string) : list (Z * Event) :=
  alice_types true ++ [(40, Submit today); (90, SubmitSettles 0 r)].

(** Typing [a], a pause, then [ab] and [abc] 200 ms apart, while the answer
    to the lookup of [a] arrives in between. *)
Definition typing_trace : list (Z * Event) := [
  (0, EmailInput "a");
  (1000, TimerFires 0);
  (1500, EmailInput "ab");
  (1600, LookupSettles 0 (Resolved (JBool false)));
  (1700, EmailInput "abc");
  (2500, TimerFires 0);
  (2700, TimerFires 1)
].

(** No answer arrives between the two keystrokes. *)
Definition quiet_trace : list (Z * Event) := [
  (1500, EmailInput "ab");
  (1700, EmailInput "abc");
  (2700, TimerFires 0)
].

(** Two lookups in flight; the later one is answered first. *)
Definition stale_trace : list (Z * Event) := [
  (0, EmailInput "taken@b.com");
  (1000, TimerFires 0);
  (1200, EmailInput "free@b.com");
  (2200, TimerFires 0);
  (2300, LookupSettles 1 (Resolved (JBool true)));
  (2400, LookupSettles 0 (Resolved (JBool false)))
].

End Sample.

(** ** The counters on component state
    ([CounterWithState.tsx], [CounterWithStateWithLayout.tsx]) *)

Module Local.

(** The two [useState] cells of the component. *)
Record State := { count : Z; text : string }.

(** [useState(0)] and [useState("")] *)
Definition initial : State := {| count := 0; text := "" |}.

(** The handlers are built by a render and close over the [count] that
    render read.

    [const increment = () => setCount(count + 1)] *)
Definition increment (count_ : Z) (st : State) : State :=
  {| count := double_round (count_ + 1); text := text st |}.

(** [const decrement = () => setCount(count - 1)] *)
Definition decrement (count_ : Z) (st : State) : State :=
  {| count := double_round (count_ - 1); text := text st |}.

(** [handleTextChange]: [setText(e.target.value)] *)
Definition handleTextChange (value_ : string) (st : State) : State :=
  {| count := count st; text := value_ |}.

(** A mounted component: its cells, and the [count] its last render read. *)
Record Component := { cells : State; rendered : Z }.

Definition mounted : Component := {| cells := initial; rendered := 0 |}.

Inductive UIEvent := ClickIncrement | ClickDecrement | Typing (value_ : string).

(** One event: the handler built by the last render runs, React renders the
    component again, and the new render reads the cells. *)
Definition handle (e : UIEvent) (c : Component) : Component :=
  let st :=
    match e with
    | ClickIncrement => increment (rendered c) (cells c)
    | ClickDecrement => decrement (rendered c) (cells c)
    | Typing value_ => handleTextChange value_ (cells c)
    end in
  {| cells := st; rendered := count st |}.

Definition play (events : list UIEvent) (c : Component) : Component :=
  fold_left (fun c e => handle e c) events c.

(** The same buttons and input wired to the store
    ([CounterWithZustand], [CounterWithZustandWithLayout]). *)
Definition action (e : UIEvent) : Store.Action :=
  match e with
  | ClickIncrement => Store.Increment
  | ClickDecrement => Store.Decrement
  | Typing value_ => Store.SetText value_
  end.

End Local.

(** ** The authentication hook and the guarded form of the refactoring notes
    ([useAuth], [AuthenticatedForm]) *)

Module Auth.

Record Credentials := { username : string; password : string }.

(** [useState(false)], and the lines written to the console. *)
Record State := { isAuthenticated : bool; console : list string }.

Definition useAuth : State := {| isAuthenticated := false; console := [] |}.

(** [login]: logs, then [setIsAuthenticated(true)]. *)
Definition login (credentials : Credentials) (st : State) : State :=
  {| isAuthenticated := true; console := console st ++ ["Logging in..."] |}.

(** [logout]: logs, then [setIsAuthenticated(false)]. *)
Definition logout (st : State) : State :=
  {| isAuthenticated := false; console := console st ++ ["Logging out..."] |}.

Inductive View :=
| Paragraph (text : string)
| PrivacySettingsFormView.

(** [AuthenticatedForm] *)
Definition AuthenticatedForm (st : State) : View :=
  if negb (isAuthenticated st)
  then Paragraph "You need to log in to access this form."
  else PrivacySettingsFormView.

Inductive Action := Login (credentials : Credentials) | Logout.

Definition dispatch (a : Action) (st : State) : State :=
  match a with
  | Login credentials => login credentials st
  | Logout => logout st
  end.

Definition run (acts : list Action) (st : State) : State :=
  fold_left (fun s a => dispatch a s) acts st.

End Auth.

(** ** What the forms display *)

(** The fields whose message the JSX renders ([errors.x && <p>...</p>]), in
    the order of the page.  The registration form's paragraph for [gender]
    is commented out. *)
Definition shown (f : Form) : list string :=
  match f with
  | RegistrationForm =>
      ["name"; "email"; "date_of_birth"; "age"; "termsAccepted";
       "privacyPolicyAccepted"; "privacySetting"]
  | PrivacySettingsForm => ["name"; "email"; "birthDate"; "privacy"; "termsAccepted"]
  end.

Definition displayedErrors (f : Form) (errs : FieldErrors) : list string :=
  omap (fun key => errs !! key) (shown f).

(** The paragraph under the email input: nothing while [emailTaken] is
    [null], otherwise its class and its text. *)
Definition availabilityMessage (taken : option bool) : option (string * string) :=
  match taken with
  | None => None
  | Some true => Some ("text-red-500", "Email is already taken")
  | Some false => Some ("text-green-500", "Email is available")
  end.

(** ** Further vocabulary *)

(** The net count of a list of store actions, and the text it leaves. *)
Definition net (acts : list Store.Action) : Z :=
  fold_left
    (fun n a =>
       match a with
       | Store.Increment => n + 1
       | Store.Decrement => n - 1
       | Store.SetText _ => n
       end)
    acts 0.

Definition last_text (acts : list Store.Action) (t0 : string) : string :=
  fold_left (fun t a => match a with Store.SetText t' => t' | _ => t end) acts t0.

(** The day [t1] is the day [t2] or an earlier one. *)
Definition on_or_before (t1 t2 : DateFields) : Prop :=
  fullYear t1 < fullYear t2
  ∨ (fullYear t1 = fullYear t2
     ∧ (month t1 < month t2 ∨ (month t1 = month t2 ∧ date t1 <= date t2))).

(** The value is an integer-valued finite number above zero. *)
Definition positive_integer (v : JSValue) : Prop :=
  exists q, v = JNumber (Finite q) /\ (0 < q)%Qc /\ Qden (this q) = 1%positive.

(** The values the registration form's [schema] lets through. *)
Record accepted (emailRegex : string -> bool) (rule : string -> bool) (v : FormValues) : Prop := {
  accepted_name : exists s, read v "name" = JString s /\ s <> "";
  accepted_email : exists s, read v "email" = JString s /\ emailRegex s = true;
  accepted_date_of_birth : exists s, read v "date_of_birth" = JString s /\ rule s = true;
  accepted_age : read v "age" = JUndefined \/ positive_integer (read v "age");
  accepted_gender :
    read v "gender" = JUndefined \/ read v "gender" = JString "male"
    \/ read v "gender" = JString "female";
  accepted_terms : read v "termsAccepted" = JBool true;
  accepted_policy : read v "privacyPolicyAccepted" = JBool true;
  accepted_privacy :
    read v "privacySetting" = JString "public" \/ read v "privacySetting" = JString "private"
    \/ read v "privacySetting" = JString "protected"
}.

(** The schema substitutes a default somewhere. *)
Fixpoint has_default (t : Zod.ZodType) : bool :=
  match t with
  | Zod.ZodDefault _ _ => true
  | Zod.ZodOptional inner | Zod.ZodEffects inner _ _ => has_default inner
  | _ => false
  end.

(** The birth-date field of each form and the message of its refinement. *)
Definition birth_key (f : Form) : string :=
  match f with RegistrationForm => "date_of_birth" | PrivacySettingsForm => "birthDate" end.
Definition birth_message (f : Form) : string :=
  match f with
  | RegistrationForm => "You must be at least 18 years old"
  | PrivacySettingsForm => "Age must be 18 or older"
  end.

(** The event leaves the field [name] alone. *)
Definition untouched (name : string) (e : Event) : Prop :=
  match e with
  | Input n _ => n <> name
  | _ => True
  end.

(** Keystrokes in the email input, with their times. *)
Definition burst (keys : list (Z * string)) : list (Z * Event) :=
  map (fun k => (k.1, EmailInput k.2)) keys.

(** The times of the keystrokes do not run backwards from [t0]. *)
Fixpoint ascending (t0 : Z) (keys : list (Z * string)) : Prop :=
  match keys with
  | [] => True
  | k :: rest => t0 <= k.1 /\ ascending k.1 rest
  end.



(** *** Further sample data *)

Module Sample2.

(** Alice filling in the registration form but for the gender. *)
Definition alice_skips_gender : list (Z * Event) := [
  (0, Input "name" (JString "Alice"));
  (10, Input "email" (JString "a@b.com"));
  (20, Input "date_of_birth" (JString "2000-01-01"));
  (25, Input "age" (JNumber (Finite (Q2Qc 26))));
  (30, Input "termsAccepted" (JBool true));
  (35, Input "privacyPolicyAccepted" (JBool true))
].

Definition no_gender : FormState := Sample.after RegistrationForm alice_skips_gender.

Definition keys : list (Z * string) := [(0, "a"); (150, "al"); (300, "ali"); (900, "alice@b.com")].

Definition clicks : list Local.UIEvent :=
  [Local.ClickIncrement; Local.ClickIncrement; Local.Typing "hi"; Local.ClickDecrement].

End Sample2.

(** * Properties *)

(** ** The counter store *)

Lemma double_round_exact (z : Z) : Z.abs z <= 2 ^ 53 -> double_round z = z.
Proof.
  intros Hz. unfold double_round.
  destruct (Z.eq_dec (Z.abs z) (2 ^ 53)) as [Heq | Hne].
  - destruct (Z.abs_eq_or_opp z) as [H | H]; rewrite H in Heq.
    + subst z. reflexivity.
    + assert (z = - 2 ^ 53) as -> by lia. reflexivity.
  - assert (Z.log2 (Z.abs z) - 52 <= 0) as He.
    { destruct (Z.eq_dec (Z.abs z) 0) as [-> | Hpos]; [simpl; lia |].
      assert (Z.log2 (Z.abs z) < 53); [| lia].
      apply Z.log2_lt_pow2; lia. }
    apply Z.leb_le in He. now rewrite He.
Qed.

(** Counting up from a safe integer and down again is exact. *)
Lemma add_sub_exact (z : Z) :
  - 2 ^ 53 <= z < 2 ^ 53 -> double_round (double_round (z + 1) - 1) = z.
Proof.
  intros Hz. rewrite (double_round_exact (z + 1)) by lia.
  rewrite double_round_exact by lia. lia.
Qed.

(** Every count the store can reach from its initial state is an integer of
    magnitude at most [2^53]. *)
Lemma run_count_bounded (acts : list Store.Action) (s : Store.Store) :
  Z.abs (Store.count s) <= 2 ^ 53 ->
  Z.abs (Store.count (Store.run acts s)) <= 2 ^ 53.
Proof.
  revert s. induction acts as [| a acts IH]; intros s Hs; [exact Hs |].
  apply IH. destruct a; simpl; [| | exact Hs].
  - destruct (Z.eq_dec (Store.count s) (2 ^ 53)) as [-> | Hne]; [vm_compute; discriminate |].
    rewrite double_round_exact; lia.
  - destruct (Z.eq_dec (Store.count s) (- 2 ^ 53)) as [-> | Hne]; [vm_compute; discriminate |].
    rewrite double_round_exact; lia.
Qed.

(** C10, as stated, fails at the largest count the store can reach: [2^53 + 1]
    is not a double and rounds back to [2^53], so the decrement lands on
    [2^53 - 1]. *)
Lemma increment_decrement_not_inverse_at_2_53 :
  Store.decrement (Store.increment {| Store.count := 9007199254740992; Store.text := "" |})
  <> {| Store.count := 9007199254740992; Store.text := "" |}.
Proof. vm_compute. discriminate. Qed.

(** C10 (amended): for every store state whose count is an integer with
    [-2^53 <= count < 2^53], increment followed by decrement returns the store
    to exactly that state: the count is the original count and the text is
    untouched. *)
Theorem increment_decrement_inverse (state : Store.Store) :
  - 2 ^ 53 <= Store.count state < 2 ^ 53 ->
  Store.decrement (Store.increment state) = state.
Proof.
  intros Hc. destruct state as [c t]. unfold Store.decrement, Store.increment. simpl in *.
  f_equal. now apply add_sub_exact.
Qed.

Lemma increment_decrement_inverse_witness :
  - 2 ^ 53 <= 41 < 2 ^ 53
  /\ Store.decrement (Store.increment {| Store.count := 41; Store.text := "hello" |})
     = {| Store.count := 41; Store.text := "hello" |}.
Proof. split; [lia |]. apply increment_decrement_inverse. simpl. lia. Defined.

(** ** The age rule *)

Section AgeRule.

Variable newDate : string -> JSDate.

(** On a valid birth date [calculateAge] counts the birthdays that have
    passed: the year difference, less one while this year's birthday is
    still ahead. *)
Lemma calculateAge_valid (t b : DateFields) (s : string) :
  newDate s = ValidDate b ->
  calculateAge newDate t s =
    Some (if (month t <? month b) || ((month t =? month b) && (date t <? date b))
          then fullYear t - fullYear b - 1
          else fullYear t - fullYear b).
Proof.
  intros Hb. unfold calculateAge. rewrite Hb. simpl.
  replace (month t - month b <? 0) with (month t <? month b)
    by (destruct (Z.ltb_spec (month t) (month b)), (Z.ltb_spec (month t - month b) 0); lia).
  replace (month t - month b =? 0) with (month t =? month b)
    by (destruct (Z.eqb_spec (month t) (month b)), (Z.eqb_spec (month t - month b) 0); lia).
  now destruct ((month t <? month b) || ((month t =? month b) && (date t <? date b))).
Qed.

(** A string that is not a date yields [NaN], and the rule rejects. *)
Lemma calculateAge_invalid (t : DateFields) (s : string) :
  newDate s = InvalidDate ->
  calculateAge newDate t s = None /\ age_rule newDate RegistrationForm t s = false.
Proof. intros Hb. unfold age_rule, calculateAge. rewrite Hb. simpl. auto. Qed.

(** The registration form's rule passes exactly when the 18th birthday is
    today or earlier. *)
Lemma registration_age_rule (t b : DateFields) (s : string) :
  newDate s = ValidDate b ->
  age_rule newDate RegistrationForm t s = true <-> adult_on t b.
Proof.
  intros Hb. unfold age_rule, adult_on. rewrite (calculateAge_valid t b s Hb).
  unfold num_ge.
  destruct (Z.ltb_spec (month t) (month b)); simpl.
  - rewrite Z.leb_le. lia.
  - destruct (Z.eqb_spec (month t) (month b)); simpl.
    + destruct (Z.ltb_spec (date t) (date b)); rewrite Z.leb_le; lia.
    + rewrite Z.leb_le. lia.
Qed.

(** The privacy-settings form looks at the calendar years only, and at
    their distance in either direction. *)
Lemma privacy_age_rule (t b : DateFields) (s : string) :
  newDate s = ValidDate b ->
  age_rule newDate PrivacySettingsForm t s = true <->
  18 <= Z.abs (fullYear t - fullYear b).
Proof.
  intros Hb. unfold age_rule, birthDate_refinement. rewrite Hb. simpl.
  apply Z.leb_le.
Qed.

End AgeRule.

(** C2: the registration form's rule is the one the claim describes: on
    3 November 2026 a birth date of 3 November 2008 (eighteen today) passes and
    4 November 2008 (17 years and 364 days) fails.  The privacy-settings
    form's rule is not: it accepts a birth date of 31 December 2008, an age of
    17 by [calculateAge], and a birth year eighteen years in the future. *)
Theorem age_rule_of_the_two_forms :
  age_rule Host.isoDate RegistrationForm Sample.today "2008-11-03" = true
  /\ age_rule Host.isoDate RegistrationForm Sample.today "2008-11-04" = false
  /\ calculateAge Host.isoDate Sample.today "2008-12-31" = Some 17
  /\ age_rule Host.isoDate RegistrationForm Sample.today "2008-12-31" = false
  /\ age_rule Host.isoDate PrivacySettingsForm Sample.today "2008-12-31" = true
  /\ age_rule Host.isoDate PrivacySettingsForm Sample.today "2044-01-01" = true.
Proof. repeat split; reflexivity. Qed.

(** ** The schema validator *)

Section Validator.

Variable emailRegex : string -> bool.

Local Abbreviation parse := (Zod.parse emailRegex).
Local Abbreviation parse_key := (Zod.parse_key emailRegex).

(** A schema reports [valid] exactly when it added no issue. *)
Lemma parse_valid_iff (t : Zod.ZodType) (input : JSValue) :
  Zod.status (parse t input) = Zod.valid <-> Zod.issues (parse t input) = [].
Proof.
  revert input. induction t as [cs | cs | | vs em | lit | t IH | t IH d | t IH p m];
    intros input; simpl.
  - destruct input; simpl; try (split; discriminate).
    destruct (concat _); simpl; split; congruence.
  - destruct input as [| | | n |]; simpl; try (split; discriminate).
    destruct n; simpl; try (split; discriminate);
      destruct (concat _); simpl; split; congruence.
  - destruct input; simpl; split; congruence.
  - destruct input; simpl; try (split; discriminate).
    case_bool_decide; simpl; split; congruence.
  - destruct (strict_equal input (JBool lit)); simpl; split; congruence.
  - destruct input; simpl; try apply IH. split; reflexivity.
  - destruct input; simpl; apply IH.
  - specialize (IH input).
    destruct (Zod.status (parse t input)) eqn:Hst; simpl.
    + destruct (p _); [rewrite Hst; tauto |]. simpl.
      split; [discriminate |]. intros H. now apply app_eq_nil in H as [_ ?].
    + destruct (p _); simpl.
      * rewrite Hst. split; [discriminate |]. intros H. apply IH in H. discriminate.
      * split; [discriminate |]. intros H. now apply app_eq_nil in H as [_ ?].
    + split; [discriminate |]. intros H. apply IH in H. discriminate.
Qed.

Lemma merge_status_valid (a b : Zod.ParseStatus) :
  Zod.merge_status a b = Zod.valid <-> a = Zod.valid /\ b = Zod.valid.
Proof. destruct a, b; simpl; intuition congruence. Qed.

Lemma fold_status_valid (shape : Zod.Shape) (data : FormValues) (st : Zod.ParseStatus) :
  fold_left (fun st kt => Zod.merge_status st (Zod.status (parse_key data kt))) shape st
    = Zod.valid
  <-> st = Zod.valid /\ Forall (fun kt => Zod.issues (parse_key data kt) = []) shape.
Proof.
  revert st. induction shape as [| kt shape IH]; intros st; simpl.
  - split; [intros ->; split; [reflexivity | constructor] | tauto].
  - rewrite IH, merge_status_valid, Forall_cons.
    unfold Zod.parse_key at 1 3. rewrite parse_valid_iff. tauto.
Qed.

(** The object is valid exactly when no key added an issue. *)
Lemma object_status_valid (shape : Zod.Shape) (data : FormValues) :
  Zod.object_status emailRegex shape data = Zod.valid
  <-> Forall (fun kt => Zod.issues (parse_key data kt) = []) shape.
Proof. unfold Zod.object_status. rewrite fold_status_valid. tauto. Qed.

(** The resolver keeps, for each path, the message of its first issue. *)
Lemma toFieldErrors_fold (issues : list Zod.ZodIssue) (acc : FieldErrors) (k : string) :
  fold_left
    (fun errs i =>
       match errs !! Zod.path i with
       | Some _ => errs
       | None => <[Zod.path i := Zod.message i]> errs
       end) issues acc !! k
  = match acc !! k with
    | Some m => Some m
    | None => Zod.message <$> head (filter (fun i => Zod.path i = k) issues)
    end.
Proof.
  revert acc. induction issues as [| i issues IH]; intros acc; simpl.
  - now destruct (acc !! k).
  - rewrite IH. rewrite filter_cons.
    destruct (acc !! Zod.path i) eqn:Hi.
    + destruct (decide (Zod.path i = k)) as [<- | Hne]; [now rewrite Hi | reflexivity].
    + destruct (decide (Zod.path i = k)) as [<- | Hne].
      * now rewrite lookup_insert_eq, Hi.
      * now rewrite lookup_insert_ne.
Qed.

Lemma filter_key_issues (data : FormValues) (kt : string * Zod.ZodType) (k : string) :
  filter (fun i => Zod.path i = k) (Zod.key_issues emailRegex data kt)
  = if decide (kt.1 = k) then Zod.key_issues emailRegex data kt else [].
Proof.
  unfold Zod.key_issues. induction (Zod.issues (parse_key data kt)) as [| m ms IH]; simpl.
  - now destruct (decide _).
  - rewrite filter_cons, IH. simpl. now destruct (decide (kt.1 = k)).
Qed.

Lemma first_issue_of_key (shape : Zod.Shape) (data : FormValues) (kt : string * Zod.ZodType) :
  NoDup shape.*1 -> kt ∈ shape ->
  Zod.message <$> head (filter (fun i => Zod.path i = kt.1)
                          (Zod.object_issues emailRegex shape data))
  = head (Zod.issues (parse_key data kt)).
Proof.
  unfold Zod.object_issues.
  induction shape as [| kt' shape IH]; intros Hnd Hin; [inversion Hin |].
  simpl in *. apply NoDup_cons in Hnd as [Hfresh Hnd].
  rewrite filter_app, filter_key_issues.
  apply elem_of_cons in Hin as [-> | Hin].
  - rewrite decide_True by reflexivity.
    unfold Zod.key_issues at 1.
    destruct (Zod.issues (parse_key data kt')) as [| m ms] eqn:Hi; simpl; [| reflexivity].
    assert (filter (fun i => Zod.path i = kt'.1)
              (concat (map (Zod.key_issues emailRegex data) shape)) = []) as ->; [| reflexivity].
    clear IH Hnd Hi. induction shape as [| kt2 shape IH2]; [reflexivity |].
    simpl. rewrite filter_app, filter_key_issues.
    rewrite decide_False by (intros Heq; apply Hfresh; simpl; rewrite <- Heq; left).
    simpl. apply IH2. intros Hin. apply Hfresh. simpl. now right.
  - rewrite decide_False.
    + simpl. now apply IH.
    + intros Heq. apply Hfresh. rewrite Heq. apply list_elem_of_fmap. eauto.
Qed.

Lemma toFieldErrors_lookup (shape : Zod.Shape) (data : FormValues) (kt : string * Zod.ZodType) :
  NoDup shape.*1 -> kt ∈ shape ->
  toFieldErrors (Zod.object_issues emailRegex shape data) !! kt.1
  = head (Zod.issues (parse_key data kt)).
Proof.
  intros Hnd Hin. unfold toFieldErrors.
  rewrite toFieldErrors_fold, lookup_empty. now apply first_issue_of_key.
Qed.

End Validator.

Lemma schema_keys (newDate : string -> JSDate) (f : Form) (t : DateFields) :
  (schema_of newDate f t).*1 = declared f.
Proof. now destruct f. Qed.

Lemma declared_NoDup (f : Form) : NoDup (declared f).
Proof. destruct f; apply (bool_decide_unpack _); vm_compute; reflexivity. Qed.

(** A required field that reads [undefined] produces an issue. *)
Lemma required_missing (newDate : string -> JSDate) (emailRegex : string -> bool)
    (f : Form) (today : DateFields) (key : string) :
  key ∈ required f ->
  exists kt m, kt ∈ schema_of newDate f today /\ kt.1 = key
    /\ head (Zod.issues (Zod.parse emailRegex kt.2 JUndefined)) = Some m.
Proof.
  intros Hkey.
  assert (key ∈ (schema_of newDate f today).*1) as Hdecl.
  { rewrite schema_keys. revert key Hkey. apply Forall_forall.
    destruct f; apply (bool_decide_unpack _); vm_compute; reflexivity. }
  apply list_elem_of_fmap in Hdecl as (kt & -> & Hin).
  exists kt. 
  assert (Forall (fun kt => bool_decide (kt.1 ∈ required f) = true ->
            exists m, head (Zod.issues (Zod.parse emailRegex kt.2 JUndefined)) = Some m)
            (schema_of newDate f today)) as Hall.
  { destruct f; simpl; repeat apply Forall_cons_2; try apply Forall_nil_2; simpl;
      intros Hb; solve [eauto | vm_compute in Hb; discriminate]. }
  rewrite Forall_forall in Hall.
  destruct (Hall kt Hin) as [m Hm]; [now apply bool_decide_eq_true |].
  eauto.
Qed.

(** Whether [validate] answers [Invalid], and with which errors, read off
    the per-field parses. *)
Lemma validate_cases (newDate : string -> JSDate) (emailRegex : string -> bool)
    (f : Form) (today : DateFields) (v : FormValues) :
  match validate newDate emailRegex f today v with
  | Valid _ =>
      Forall (fun kt => Zod.issues (Zod.parse_key emailRegex v kt) = [])
        (schema_of newDate f today)
  | Invalid errs =>
      Exists (fun kt => Zod.issues (Zod.parse_key emailRegex v kt) <> [])
        (schema_of newDate f today)
      /\ Forall (fun kt => errs !! kt.1 = head (Zod.issues (Zod.parse_key emailRegex v kt)))
           (schema_of newDate f today)
  end.
Proof.
  unfold validate, Zod.safeParse.
  pose proof (object_status_valid emailRegex (schema_of newDate f today) v) as Hst.
  assert (NoDup (schema_of newDate f today).*1) as Hnd
    by (rewrite schema_keys; apply declared_NoDup).
  destruct (Zod.object_status emailRegex (schema_of newDate f today) v);
    [now apply Hst | |];
    (split;
     [ apply not_Forall_Exists; [intros kt; apply _ |];
       intros Hall; apply Hst in Hall; discriminate
     | apply Forall_forall; intros kt Hin; now apply toFieldErrors_lookup ]).
Qed.

(** C1: [validate] answers [Invalid] exactly when a declared field produces
    an issue, and then the error record has an entry for every failing field:
    for each declared field it holds the field's first message, and nothing
    for a field that passed.  In particular every required field that is
    missing from the values (it reads [undefined]) has an entry. *)
Theorem validate_collects_every_error (newDate : string -> JSDate)
    (emailRegex : string -> bool) (f : Form) (today : DateFields) (v : FormValues) :
  match validate newDate emailRegex f today v with
  | Valid _ =>
      Forall (fun kt => Zod.issues (Zod.parse_key emailRegex v kt) = [])
        (schema_of newDate f today)
  | Invalid errs =>
      Exists (fun kt => Zod.issues (Zod.parse_key emailRegex v kt) <> [])
        (schema_of newDate f today)
      /\ Forall (fun kt => errs !! kt.1 = head (Zod.issues (Zod.parse_key emailRegex v kt)))
           (schema_of newDate f today)
      /\ Forall (fun key => read v key = JUndefined -> is_Some (errs !! key)) (required f)
  end
  /\ ((exists key, key ∈ required f /\ read v key = JUndefined) ->
      exists errs, validate newDate emailRegex f today v = Invalid errs).
Proof.
  pose proof (validate_cases newDate emailRegex f today v) as Hcases.
  assert (Forall (fun key => read v key = JUndefined ->
            exists kt m, kt ∈ schema_of newDate f today /\ kt.1 = key
              /\ head (Zod.issues (Zod.parse_key emailRegex v kt)) = Some m) (required f))
    as Hreq.
  { apply Forall_forall. intros key Hkey Hnone.
    destruct (required_missing newDate emailRegex f today key Hkey) as (kt & m & Hin & <- & Hm).
    exists kt, m. unfold Zod.parse_key. rewrite Hnone. auto. }
  destruct (validate newDate emailRegex f today v) as [record | errs].
  - split; [exact Hcases |].
    intros (key & Hin & Hnone). exfalso.
    rewrite Forall_forall in Hreq. destruct (Hreq key Hin Hnone) as (kt & m & Hkt & _ & Hm).
    rewrite Forall_forall in Hcases. rewrite (Hcases kt Hkt) in Hm. discriminate.
  - destruct Hcases as [Hex Hall]. split; [| eauto]. split; [exact Hex |]. split; [exact Hall |].
    eapply Forall_impl; [exact Hreq |]. intros key Hk Hnone.
    destruct (Hk Hnone) as (kt & m & Hkt & <- & Hm).
    rewrite Forall_forall in Hall. rewrite (Hall kt Hkt), Hm. eauto.
Qed.

(** ** What the validator's answer depends on *)

Section SameType.

Variable emailRegex : string -> bool.

Lemma parse_same_type (t t' : Zod.ZodType) :
  same_type t t' -> forall input, Zod.parse emailRegex t input = Zod.parse emailRegex t' input.
Proof.
  induction 1 as [t t' p p' m _ IH Hp | t t' _ IH | t t' d _ IH | t]; intros input; simpl.
  - rewrite IH, Hp. reflexivity.
  - destruct input; auto.
  - destruct input; auto.
  - reflexivity.
Qed.

Lemma parse_key_same (data : FormValues) (a b : string * Zod.ZodType) :
  same_key a b -> Zod.parse_key emailRegex data a = Zod.parse_key emailRegex data b.
Proof.
  intros [Hk Ht]. unfold Zod.parse_key. rewrite Hk. now apply parse_same_type.
Qed.

Lemma safeParse_same (shape shape' : Zod.Shape) (data : FormValues) :
  Forall2 same_key shape shape' ->
  Zod.safeParse emailRegex shape data = Zod.safeParse emailRegex shape' data.
Proof.
  intros Hsame. unfold Zod.safeParse.
  assert (Zod.object_status emailRegex shape data
          = Zod.object_status emailRegex shape' data) as ->.
  { unfold Zod.object_status. generalize Zod.valid.
    induction Hsame as [| a b l l' Hab _ IH]; intros st; simpl; [reflexivity |].
    rewrite (parse_key_same data a b Hab). apply IH. }
  assert (Zod.object_issues emailRegex shape data
          = Zod.object_issues emailRegex shape' data) as ->.
  { unfold Zod.object_issues.
    induction Hsame as [| a b l l' Hab _ IH]; simpl; [reflexivity |].
    rewrite IH. unfold Zod.key_issues.
    rewrite (parse_key_same data a b Hab). destruct Hab as [-> _]. reflexivity. }
  assert (Zod.object_value emailRegex shape data
          = Zod.object_value emailRegex shape' data) as ->; [| reflexivity].
  unfold Zod.object_value. generalize (∅ : FormValues).
  induction Hsame as [| a b l l' Hab _ IH]; intros out; simpl; [reflexivity |].
  rewrite (parse_key_same data a b Hab). destruct Hab as [-> _]. apply IH.
Qed.

End SameType.

Lemma calculateAge_same_day (newDate : string -> JSDate) (t1 t2 : DateFields) (s : string) :
  fullYear t1 = fullYear t2 -> month t1 = month t2 -> date t1 = date t2 ->
  calculateAge newDate t1 s = calculateAge newDate t2 s.
Proof. intros Hy Hm Hd. unfold calculateAge. simpl. now rewrite Hy, Hm, Hd. Qed.

Lemma schema_same_day (newDate : string -> JSDate) (f : Form) (t1 t2 : DateFields) :
  fullYear t1 = fullYear t2 -> month t1 = month t2 -> date t1 = date t2 ->
  Forall2 same_key (schema_of newDate f t1) (schema_of newDate f t2).
Proof.
  intros Hy Hm Hd.
  destruct f; simpl; repeat apply Forall2_cons_2; try apply Forall2_nil_2;
    (split; [reflexivity |]); simpl; try apply same_refl.
  - apply same_effects; [apply same_refl |].
    intros [| | | |s]; simpl; try reflexivity.
    now rewrite (calculateAge_same_day newDate t1 t2 s).
  - apply same_effects; [apply same_refl |].
    intros [| | | |s]; simpl; try reflexivity.
    unfold birthDate_refinement. simpl. now rewrite Hy.
Qed.

(** C9, as stated, fails: the age rule reads the clock.  The same values are
    rejected on 3 November 2026 and accepted a day later. *)
Lemma validate_depends_on_the_date :
  validate Host.isoDate Host.zodEmail RegistrationForm Sample.today Sample.bob
  <> validate Host.isoDate Host.zodEmail RegistrationForm Sample.tomorrow Sample.bob.
Proof.
  intros Heq.
  assert (validate Host.isoDate Host.zodEmail RegistrationForm Sample.today Sample.bob
          = Invalid {[ "date_of_birth" := "You must be at least 18 years old" ]}) as Ha
    by (vm_compute; reflexivity).
  rewrite Ha in Heq.
  assert (exists r, validate Host.isoDate Host.zodEmail RegistrationForm
                      Sample.tomorrow Sample.bob = Valid r) as [r Hb]
    by (eexists; vm_compute; reflexivity).
  rewrite Hb in Heq. discriminate.
Qed.

(** C9 (amended): [validate] is a function of the FormValues, the schema and
    the calendar day of the call, and of nothing else: two calls with
    identical FormValues on the same day yield identical results, whatever
    the time of day and the state of the form. *)
Theorem validate_same_day (newDate : string -> JSDate) (emailRegex : string -> bool)
    (f : Form) (t1 t2 : DateFields) (v : FormValues) :
  fullYear t1 = fullYear t2 -> month t1 = month t2 -> date t1 = date t2 ->
  validate newDate emailRegex f t1 v = validate newDate emailRegex f t2 v.
Proof.
  intros Hy Hm Hd. unfold validate.
  now rewrite (safeParse_same emailRegex _ _ v (schema_same_day newDate f t1 t2 Hy Hm Hd)).
Qed.

Lemma validate_same_day_witness :
  fullYear Sample.today = fullYear Sample.noon
  /\ month Sample.today = month Sample.noon
  /\ date Sample.today = date Sample.noon
  /\ validate Host.isoDate Host.zodEmail RegistrationForm Sample.today Sample.bob
     = validate Host.isoDate Host.zodEmail RegistrationForm Sample.noon Sample.bob.
Proof.
  do 3 (split; [reflexivity |]).
  apply validate_same_day; reflexivity.
Defined.

(** ** The form state controller *)

(** A field whose parse produces an issue makes the whole record invalid,
    with the field's first message in the error record. *)
Lemma validate_field_issue (newDate : string -> JSDate) (emailRegex : string -> bool)
    (f : Form) (today : DateFields) (v : FormValues) (kt : string * Zod.ZodType) (m : string) :
  kt ∈ schema_of newDate f today ->
  head (Zod.issues (Zod.parse_key emailRegex v kt)) = Some m ->
  exists errs, validate newDate emailRegex f today v = Invalid errs /\ errs !! kt.1 = Some m.
Proof.
  intros Hin Hm. pose proof (validate_cases newDate emailRegex f today v) as Hcases.
  destruct (validate newDate emailRegex f today v) as [record | errs].
  - rewrite Forall_forall in Hcases. rewrite (Hcases kt Hin) in Hm. discriminate.
  - destruct Hcases as [_ Hall]. rewrite Forall_forall in Hall.
    exists errs. split; [reflexivity |]. now rewrite (Hall kt Hin).
Qed.

(** The message shown for an unticked terms box. *)
Lemma terms_not_accepted (newDate : string -> JSDate) (emailRegex : string -> bool)
    (f : Form) (today : DateFields) (v : FormValues) :
  v !! "termsAccepted" = Some (JBool false) ->
  exists errs, validate newDate emailRegex f today v = Invalid errs
    /\ errs !! "termsAccepted" =
         Some match f with
              | RegistrationForm => "You must accept the terms and conditions"
              | PrivacySettingsForm => "Invalid literal value, expected true"
              end.
Proof.
  intros Hv. destruct f.
  - apply (validate_field_issue newDate emailRegex RegistrationForm today v
             ("termsAccepted", Zod.ZodEffects Zod.ZodBoolean is_true
                                 "You must accept the terms and conditions")).
    + simpl. set_solver.
    + unfold Zod.parse_key, read. simpl. now rewrite Hv.
  - apply (validate_field_issue newDate emailRegex PrivacySettingsForm today v
             ("termsAccepted", Zod.ZodEffects (Zod.ZodLiteral true) is_true
                                 "You must accept the terms and conditions")).
    + simpl. set_solver.
    + unfold Zod.parse_key, read. simpl. now rewrite Hv.
Qed.

Lemma setEmailTaken_fields (b : bool) (st : FormState) :
  values (setEmailTaken b st) = values st
  /\ errors (setEmailTaken b st) = errors st
  /\ requests (setEmailTaken b st) = requests st
  /\ emailTaken (setEmailTaken b st) = Some b.
Proof. unfold setEmailTaken. case_bool_decide; simpl; auto. Qed.

Lemma step_now (newDate : string -> JSDate) (emailRegex : string -> bool)
    (f : Form) (t : Z) (e : Event) (st st' : FormState) :
  step newDate emailRegex f t e st = Some st' -> now st <= t.
Proof. unfold step. destruct (Z.ltb_spec t (now st)); [discriminate | lia]. Qed.

(** C4: on values the validator rejects, [handleSubmit] publishes the error
    record and sends nothing: the list of requests and the values are as
    before.  (On valid values it sends one POST carrying the validated
    record.)  In particular an unticked terms box gives an error on
    [termsAccepted] and no request. *)
Theorem invalid_submit_sends_nothing (newDate : string -> JSDate)
    (emailRegex : string -> bool) (f : Form) (today : DateFields) (t : Z) (st : FormState) :
  now st <= t ->
  exists st', step newDate emailRegex f t (Submit today) st = Some st'
    /\ match validate newDate emailRegex f today (values st) with
       | Invalid errs =>
           errors st' = errs /\ requests st' = requests st /\ values st' = values st
       | Valid data =>
           errors st' = ∅ /\ requests st' = requests st ++ [POST_users data]
       end
    /\ (values st !! "termsAccepted" = Some (JBool false) ->
        is_Some (errors st' !! "termsAccepted") /\ requests st' = requests st).
Proof.
  intros Ht. unfold step. rewrite (proj2 (Z.ltb_ge t (now st)) Ht).
  eexists. split; [reflexivity |]. unfold handleSubmit. simpl.
  split.
  - destruct (validate newDate emailRegex f today (values st)); [| now simpl].
    destruct f; simpl; auto.
  - intros Hv.
    destruct (terms_not_accepted newDate emailRegex f today (values st) Hv)
      as (errs & -> & Herr).
    simpl. rewrite Herr. eauto.
Qed.

Lemma invalid_submit_sends_nothing_witness :
  now (Sample.filled false) <= 40
  /\ exists st',
       step Host.isoDate Host.zodEmail RegistrationForm 40 (Submit Sample.today)
         (Sample.filled false) = Some st'
       /\ is_Some (errors st' !! "termsAccepted")
       /\ requests st' = requests (Sample.filled false).
Proof.
  split; [vm_compute; discriminate |].
  destruct (invalid_submit_sends_nothing Host.isoDate Host.zodEmail RegistrationForm
              Sample.today 40 (Sample.filled false))
    as (st' & Hstep & _ & Hterms); [vm_compute; discriminate |].
  exists st'. split; [exact Hstep |]. apply Hterms. vm_compute. reflexivity.
Defined.

(** C5: when the submission fails, the handler only logs: the values, the
    error record, the availability state and the requests are as they were,
    and the console has one more line. *)
Theorem failed_submission_only_logs (newDate : string -> JSDate)
    (emailRegex : string -> bool) (f : Form) (t : Z) (i : nat) (st : FormState) :
  now st <= t -> is_post st i = true ->
  exists st', step newDate emailRegex f t (SubmitSettles i Rejected) st = Some st'
    /\ values st' = values st
    /\ errors st' = errors st
    /\ emailTaken st' = emailTaken st
    /\ requests st' = requests st
    /\ console st' = console st ++
         [match f with
          | RegistrationForm => "Error submitting form:"
          | PrivacySettingsForm => "Submission failed"
          end].
Proof.
  intros Ht Hpost. unfold step. rewrite (proj2 (Z.ltb_ge t (now st)) Ht).
  assert (is_post (set_now t st) i = true) as -> by exact Hpost.
  eexists. split; [reflexivity |]. destruct f; simpl; auto.
Qed.

Lemma failed_submission_only_logs_witness :
  now Sample.submitted <= 90
  /\ is_post Sample.submitted 0 = true
  /\ exists st',
       step Host.isoDate Host.zodEmail RegistrationForm 90 (SubmitSettles 0 Rejected)
         Sample.submitted = Some st'
       /\ values st' = values Sample.submitted
       /\ errors st' = errors Sample.submitted.
Proof.
  split; [vm_compute; discriminate |]. split; [reflexivity |].
  destruct (failed_submission_only_logs Host.isoDate Host.zodEmail RegistrationForm
              90 0 Sample.submitted) as (st' & Hstep & Hv & He & _);
    [vm_compute; discriminate | reflexivity |].
  eauto.
Defined.

(** The failed submission end to end: Alice's values are still in the form
    and no error is shown. *)
Example registration_failure_end_to_end :
  exists st,
    run Host.isoDate Host.zodEmail RegistrationForm (Sample.registration_trace Rejected)
      (init RegistrationForm) = Some st
    /\ values st = values (Sample.filled true) /\ errors st = ∅
    /\ posts st = [values (Sample.filled true)].
Proof. eexists. split; [vm_compute; reflexivity |]. repeat split; vm_compute; reflexivity. Qed.

(** An untouched registration form cannot be submitted: the empty number
    input reads [NaN] and the unselected gender reads the empty string, and
    neither is [undefined], so the two optional fields fail as well. *)
Example untouched_form_errors :
  exists errs,
    validate Host.isoDate Host.zodEmail RegistrationForm Sample.today
      (initialValues RegistrationForm) = Invalid errs
    /\ errs !! "name" = Some "Name is required"
    /\ errs !! "email" = Some "Invalid email format"
    /\ errs !! "date_of_birth" = Some "You must be at least 18 years old"
    /\ errs !! "age" = Some "Expected number, received nan"
    /\ errs !! "gender" = Some "Invalid enum value. Expected 'male' | 'female', received ''"
    /\ errs !! "termsAccepted" = Some "You must accept the terms and conditions"
    /\ errs !! "privacyPolicyAccepted" = Some "You must accept the Privacy Policy"
    /\ errs !! "privacySetting" = None.
Proof. eexists. split; [vm_compute; reflexivity |]. repeat split; vm_compute; reflexivity. Qed.

(** C3, as stated, fails for the privacy-settings form: its [onSubmit] logs
    the response and leaves the values as submitted. *)
Lemma privacy_form_success_keeps_values :
  match run Host.isoDate Host.zodEmail PrivacySettingsForm Sample.privacy_trace
          (init PrivacySettingsForm) with
  | Some st =>
      values st <> initialValues PrivacySettingsForm
      /\ values st <> defaultValues PrivacySettingsForm
      /\ read (values st) "name" = JString "Alice"
  | None => False
  end.
Proof.
  destruct (run _ _ _ _ _) as [st |] eqn:Hrun; [| vm_compute in Hrun; discriminate].
  assert ((fun st => read (values st) "name") <$>
            run Host.isoDate Host.zodEmail PrivacySettingsForm
              Sample.privacy_trace (init PrivacySettingsForm)
          = Some (JString "Alice")) as Hname by (vm_compute; reflexivity).
  rewrite Hrun in Hname. simpl in Hname. injection Hname as Hname.
  repeat split; [| | exact Hname]; intros Heq; rewrite Heq in Hname;
    vm_compute in Hname; discriminate.
Qed.

(** C3 (amended): when the submission succeeds, the registration form resets:
    FormValues are back at their initial values (the declared default for
    [privacySetting], every other input empty) and FieldErrors are empty, as
    after [reset].  The privacy-settings form does not reset: its FormValues
    and FieldErrors stay as they were. *)
Theorem successful_submission (newDate : string -> JSDate)
    (emailRegex : string -> bool) (f : Form) (t : Z) (i : nat) (body : string)
    (st : FormState) :
  now st <= t -> is_post st i = true ->
  exists st', step newDate emailRegex f t (SubmitSettles i (Resolved body)) st = Some st'
    /\ match f with
       | RegistrationForm =>
           values st' = values (init RegistrationForm)
           /\ read (values st') "privacySetting" = JString "public"
           /\ errors st' = ∅
           /\ values st' = values (reset RegistrationForm st)
           /\ errors st' = errors (reset RegistrationForm st)
       | PrivacySettingsForm =>
           values st' = values st /\ errors st' = errors st
       end.
Proof.
  intros Ht Hpost. unfold step. rewrite (proj2 (Z.ltb_ge t (now st)) Ht).
  assert (is_post (set_now t st) i = true) as -> by exact Hpost.
  eexists. split; [reflexivity |]. destruct f; simpl; auto.
Qed.

Lemma successful_submission_witness :
  now Sample.submitted <= 90
  /\ is_post Sample.submitted 0 = true
  /\ exists st',
       step Host.isoDate Host.zodEmail RegistrationForm 90
         (SubmitSettles 0 (Resolved "created")) Sample.submitted = Some st'
       /\ values st' = values (init RegistrationForm)
       /\ errors st' = ∅.
Proof.
  split; [vm_compute; discriminate |]. split; [reflexivity |].
  destruct (successful_submission Host.isoDate Host.zodEmail RegistrationForm
              90 0 "created" Sample.submitted) as (st' & Hstep & Hv & _ & He & _);
    [vm_compute; discriminate | reflexivity |].
  eauto.
Defined.

(** A successful submission end to end: Alice fills in every input, the
    validated record is posted, and the form is back at its initial values. *)
Example registration_success_end_to_end :
  exists st,
    run Host.isoDate Host.zodEmail RegistrationForm
      (Sample.registration_trace (Resolved "created")) (init RegistrationForm) = Some st
    /\ values st = values (init RegistrationForm) /\ errors st = ∅
    /\ posts st = [values (Sample.filled true)].
Proof. eexists. split; [vm_compute; reflexivity |]. repeat split; vm_compute; reflexivity. Qed.

(** ** The shape of FormValues *)

Lemma dom_mount (inputs : list (string * InputKind)) (v : FormValues) :
  dom (mount inputs v) = dom v ∪ list_to_set inputs.*1.
Proof.
  unfold mount. revert v. induction inputs as [| [name k] inputs IH]; intros v; simpl.
  - set_solver.
  - rewrite IH. destruct (is_undefined (read v name)) eqn:Hu.
    + rewrite dom_insert_L. set_solver.
    + assert (name ∈ dom v); [| set_solver].
      apply elem_of_dom. unfold read in Hu.
      destruct (v !! name); [eauto | discriminate].
Qed.

Lemma initial_invariant (f : Form) : fields_invariant f (initialValues f).
Proof.
  unfold fields_invariant, initialValues. rewrite dom_mount.
  destruct f; simpl; rewrite dom_singleton_L; set_solver.
Qed.

Lemma insert_invariant (f : Form) (name : string) (x : JSValue) (v : FormValues) :
  name ∈ declared f -> fields_invariant f v -> fields_invariant f (<[name := x]> v).
Proof.
  unfold fields_invariant. intros Hname Hdom. rewrite dom_insert_L, Hdom.
  apply (elem_of_list_to_set (C := gset string)) in Hname. set_solver.
Qed.

Lemma email_declared (f : Form) : "email" ∈ declared f.
Proof. destruct f; simpl; set_solver. Qed.

Lemma handleSubmit_values (newDate : string -> JSDate) (emailRegex : string -> bool)
    (f : Form) (today : DateFields) (st : FormState) :
  values (handleSubmit newDate emailRegex f today st) = values st.
Proof.
  unfold handleSubmit. destruct (validate _ _ _ _ _); [| reflexivity].
  now destruct f.
Qed.

Lemma step_invariant (newDate : string -> JSDate) (emailRegex : string -> bool)
    (f : Form) (t : Z) (e : Event) (st st' : FormState) :
  well_typed f e -> step newDate emailRegex f t e st = Some st' ->
  fields_invariant f (values st) -> fields_invariant f (values st').
Proof.
  intros Hty Hstep Hinv. unfold step in Hstep.
  destruct (t <? now st); [discriminate |].
  destruct e as [name v | email_ | fn | i r | today | i r |]; simpl in Hty.
  - injection Hstep as <-. simpl. now apply insert_invariant.
  - destruct f; injection Hstep as <-; simpl;
      apply insert_invariant; auto using email_declared.
  - unfold timerExpired in Hstep. simpl in Hstep.
    destruct (pending st !! fn) as [[lastCallTime lastArgs] |]; [| discriminate].
    destruct (wait <=? t - lastCallTime); [| discriminate].
    now injection Hstep as <-.
  - destruct (is_lookup _ i); [| discriminate]. injection Hstep as <-.
    destruct r as [a |]; simpl; [| exact Hinv].
    now rewrite (proj1 (setEmailTaken_fields _ _)).
  - injection Hstep as <-. now rewrite handleSubmit_values.
  - destruct (is_post _ i); [| discriminate]. injection Hstep as <-.
    destruct f, r; simpl; auto using initial_invariant.
  - injection Hstep as <-. simpl. apply initial_invariant.
Qed.

Lemma run_invariant (newDate : string -> JSDate) (emailRegex : string -> bool)
    (f : Form) (trace : list (Z * Event)) (st st' : FormState) :
  Forall (well_typed f) trace.*2 -> run newDate emailRegex f trace st = Some st' ->
  fields_invariant f (values st) -> fields_invariant f (values st').
Proof.
  revert st. induction trace as [| [t e] trace IH]; intros st Hty Hrun Hinv; simpl in *.
  - now injection Hrun as <-.
  - apply Forall_cons in Hty as [He Hty].
    destruct (step newDate emailRegex f t e st) as [st1 |] eqn:Hstep; [| discriminate].
    eapply IH; eauto using step_invariant.
Qed.

(** C8: after initialization and after every operation (a change of a
    declared field, a submission and its outcome, a lookup and its outcome,
    a reset) FormValues has exactly one entry per declared field: the names
    with an entry are the declared names, eight of them in the registration
    form. *)
Theorem form_values_shape (newDate : string -> JSDate) (emailRegex : string -> bool)
    (f : Form) (trace : list (Z * Event)) (st : FormState) :
  Forall (well_typed f) trace.*2 ->
  run newDate emailRegex f trace (init f) = Some st ->
  dom (values st) = list_to_set (declared f)
  /\ (forall key, key ∈ declared f <-> is_Some (values st !! key))
  /\ size (values st) = length (declared f).
Proof.
  intros Hty Hrun.
  pose proof (run_invariant newDate emailRegex f trace (init f) st Hty Hrun
                (initial_invariant f)) as Hdom.
  unfold fields_invariant in Hdom.
  split; [exact Hdom |]. split.
  - intros key. rewrite <- elem_of_dom, Hdom. symmetry. apply elem_of_list_to_set.
  - rewrite <- size_dom, Hdom. apply size_list_to_set, declared_NoDup.
Qed.

Lemma form_values_shape_witness :
  Forall (well_typed RegistrationForm) (Sample.registration_trace Rejected).*2
  /\ exists st,
       run Host.isoDate Host.zodEmail RegistrationForm (Sample.registration_trace Rejected)
         (init RegistrationForm) = Some st
       /\ dom (values st) = list_to_set (declared RegistrationForm)
       /\ size (values st) = 8%nat.
Proof.
  assert (Forall (well_typed RegistrationForm) (Sample.registration_trace Rejected).*2) as Hty
    by (simpl; repeat constructor; simpl; set_solver).
  split; [exact Hty |].
  destruct (run Host.isoDate Host.zodEmail RegistrationForm (Sample.registration_trace Rejected)
              (init RegistrationForm)) as [st |] eqn:Hrun; [| vm_compute in Hrun; discriminate].
  exists st. split; [reflexivity |].
  destruct (form_values_shape Host.isoDate Host.zodEmail RegistrationForm
              (Sample.registration_trace Rejected) st Hty Hrun) as (H1 & _ & H2).
  split; assumption.
Defined.

(** ** The debounced availability lookup *)

Lemma lookups_send_get (email_ : string) (st : FormState) :
  lookups (send (GET_check_email email_) st) = lookups st ++ [email_].
Proof. unfold lookups. simpl. now rewrite omap_app. Qed.

(** Two keystrokes handled by the same render, however close: the debounced
    function of that render remembers the second only, its timer cannot
    fire before the quiet window has passed since the second, and when it
    fires it sends one lookup, for the second value. *)
Lemma debounce_collapses (newDate : string -> JSDate) (emailRegex : string -> bool)
    (t1 t2 t3 : Z) (v1 v2 : string) (st : FormState) :
  now st <= t1 -> t1 <= t2 -> t2 <= t3 ->
  match run newDate emailRegex RegistrationForm
          [(t1, EmailInput v1); (t2, EmailInput v2); (t3, TimerFires (render st))] st with
  | Some st' =>
      t2 + wait <= t3
      /\ lookups st' = lookups st ++ [v2]
      /\ pending st' = delete (render st) (pending st)
  | None => t3 < t2 + wait
  end.
Proof.
  intros H1 H2 H3. unfold run, step. simpl.
  rewrite (proj2 (Z.ltb_ge t1 (now st)) H1). simpl.
  rewrite (proj2 (Z.ltb_ge t2 t1) H2). simpl.
  rewrite (proj2 (Z.ltb_ge t3 t2) H3). simpl.
  unfold timerExpired. simpl. rewrite lookup_insert_eq.
  destruct (Z.leb_spec wait (t3 - t2)); [| lia].
  split; [lia |]. split.
  - rewrite lookups_send_get. reflexivity.
  - simpl. now rewrite insert_insert_eq, delete_insert_eq.
Qed.

(** C6: two changes of the email 200 ms apart, [ab] at 1500 and [abc] at
    1700, with the answer to an earlier lookup arriving in between.  The
    answer changes [emailTaken], the component renders again and its body
    builds a new debounced function; the timer of the old one still runs.
    Both fire: a lookup goes out for [ab] and another for [abc].  Without the
    answer in between, the same two changes give the single lookup for
    [abc]. *)
Theorem rerender_splits_the_debounce :
  (exists st,
     run Host.isoDate Host.zodEmail RegistrationForm Sample.typing_trace
       (init RegistrationForm) = Some st
     /\ lookups st = ["a"; "ab"; "abc"]
     /\ render st = 1%nat)
  /\ (exists st,
        run Host.isoDate Host.zodEmail RegistrationForm Sample.quiet_trace
          (init RegistrationForm) = Some st
        /\ lookups st = ["abc"]).
Proof.
  split; eexists; (split; [vm_compute; reflexivity |]); repeat split; reflexivity.
Qed.

(** ** The availability state *)

(** C7, as stated, fails: the lookup for [taken@b.com] is issued first and
    answered last; its answer overwrites the answer for [free@b.com], the
    value the field holds. *)
Lemma stale_response_overwrites :
  exists st,
    run Host.isoDate Host.zodEmail RegistrationForm Sample.stale_trace
      (init RegistrationForm) = Some st
    /\ lookups st = ["taken@b.com"; "free@b.com"]
    /\ values st !! "email" = Some (JString "free@b.com")
    /\ emailTaken st = Some true.
Proof.
  eexists. split; [vm_compute; reflexivity |]. repeat split; vm_compute; reflexivity.
Qed.

(** C7 (amended): AvailabilityState reflects the lookup that was answered
    last, whatever the order of issue: every successful answer sets it to the
    negation of that answer's [isAvailable], and a failed lookup is logged and
    leaves it as it was. *)
Theorem availability_follows_completion_order (newDate : string -> JSDate)
    (emailRegex : string -> bool) (f : Form) (t : Z) (i : nat) (r : Settled JSValue)
    (st : FormState) :
  now st <= t -> is_lookup st i = true ->
  exists st', step newDate emailRegex f t (LookupSettles i r) st = Some st'
    /\ emailTaken st' =
         match r with
         | Resolved isAvailable => Some (negb (truthy isAvailable))
         | Rejected => emailTaken st
         end
    /\ values st' = values st
    /\ errors st' = errors st.
Proof.
  intros Ht Hlook. unfold step. rewrite (proj2 (Z.ltb_ge t (now st)) Ht).
  assert (is_lookup (set_now t st) i = true) as -> by exact Hlook.
  eexists. split; [reflexivity |]. destruct r as [a |]; simpl; [| auto].
  destruct (setEmailTaken_fields (negb (truthy a)) (settle i (set_now t st)))
    as (Hv & He & _ & Ht'). auto.
Qed.

Lemma availability_follows_completion_order_witness :
  now Sample.looking_up <= 10
  /\ is_lookup Sample.looking_up 0 = true
  /\ exists st',
       step Host.isoDate Host.zodEmail RegistrationForm 10
         (LookupSettles 0 (Resolved (JBool false))) Sample.looking_up = Some st'
       /\ emailTaken st' = Some true.
Proof.
  split; [simpl; lia |]. split; [reflexivity |].
  destruct (availability_follows_completion_order Host.isoDate Host.zodEmail
              RegistrationForm 10 0 (Resolved (JBool false)) Sample.looking_up)
    as (st' & Hstep & Htaken & _); [simpl; lia | reflexivity |].
  eauto.
Defined.

(** * Further properties *)

(** ** The store over a history of actions *)

Lemma run_app (a b : list Store.Action) (s : Store.Store) :
  Store.run (a ++ b) s = Store.run b (Store.run a s).
Proof. unfold Store.run. apply fold_left_app. Qed.

Lemma net_snoc (acts : list Store.Action) (a : Store.Action) :
  net (acts ++ [a]) =
    match a with
    | Store.Increment => net acts + 1
    | Store.Decrement => net acts - 1
    | Store.SetText _ => net acts
    end.
Proof. unfold net. now rewrite fold_left_app. Qed.

Lemma net_bounded (acts : list Store.Action) : Z.abs (net acts) <= Z.of_nat (length acts).
Proof.
  induction acts as [| a acts IH] using rev_ind; [unfold net; simpl; lia |].
  rewrite net_snoc, length_app. simpl. destruct a; lia.
Qed.

(** X1: a history of fewer than [2^53] actions on the fresh store leaves
    the count at the number of increments less the number of decrements, and
    the text at the argument of the last [setText] (the empty string when
    there was none). *)
Theorem store_history (acts : list Store.Action) :
  Z.of_nat (length acts) < 2 ^ 53 ->
  Store.count (Store.run acts Store.useStore) = net acts
  /\ Store.text (Store.run acts Store.useStore) = last_text acts "".
Proof.
  induction acts as [| a acts IH] using rev_ind; intros Hlen; [split; reflexivity |].
  rewrite length_app in Hlen. simpl in Hlen.
  destruct IH as [Hc Ht]; [lia |].
  pose proof (net_bounded acts) as Hb.
  rewrite run_app, net_snoc. unfold last_text. rewrite fold_left_app. fold (last_text acts "").
  assert (Z.abs (net acts + 1) <= 2 ^ 53 /\ Z.abs (net acts - 1) <= 2 ^ 53) as [Hup Hdown]
    by lia.
  destruct a; unfold Store.run; simpl; fold (Store.run acts Store.useStore);
    rewrite ?Hc, ?Ht; rewrite ?(double_round_exact _ Hup), ?(double_round_exact _ Hdown); auto.
Qed.

Lemma store_history_witness :
  Z.of_nat (length [Store.Increment; Store.SetText "a"; Store.Increment; Store.Decrement;
                    Store.SetText "b"; Store.Increment]) < 2 ^ 53
  /\ Store.count (Store.run [Store.Increment; Store.SetText "a"; Store.Increment;
                             Store.Decrement; Store.SetText "b"; Store.Increment]
                    Store.useStore) = 2
  /\ Store.text (Store.run [Store.Increment; Store.SetText "a"; Store.Increment;
                            Store.Decrement; Store.SetText "b"; Store.Increment]
                   Store.useStore) = "b".
Proof.
  split; [simpl; lia |].
  apply (store_history [Store.Increment; Store.SetText "a"; Store.Increment; Store.Decrement;
                        Store.SetText "b"; Store.Increment]).
  simpl. lia.
Defined.

(** X2: whatever the history, the count of the store stays an integer between
    [-2^53] and [2^53]: at either end the action that would leave the range
    changes nothing, whatever the text. *)
Theorem store_count_range (acts : list Store.Action) :
  - 2 ^ 53 <= Store.count (Store.run acts Store.useStore) <= 2 ^ 53
  /\ (forall t, Store.increment {| Store.count := 2 ^ 53; Store.text := t |}
                = {| Store.count := 2 ^ 53; Store.text := t |})
  /\ (forall t, Store.decrement {| Store.count := - 2 ^ 53; Store.text := t |}
                = {| Store.count := - 2 ^ 53; Store.text := t |}).
Proof.
  split.
  - pose proof (run_count_bounded acts Store.useStore) as H. simpl in H. lia.
  - split; reflexivity.
Qed.

(** X3: decrement followed by increment returns the store to the state it
    was in, for every state whose count is an integer with
    [-2^53 < count <= 2^53]. *)
Theorem decrement_increment_inverse (state : Store.Store) :
  - 2 ^ 53 < Store.count state <= 2 ^ 53 ->
  Store.increment (Store.decrement state) = state.
Proof.
  intros Hc. destruct state as [c t]. unfold Store.decrement, Store.increment. simpl in *.
  f_equal. rewrite (double_round_exact (c - 1)) by lia.
  rewrite double_round_exact by lia. lia.
Qed.

Lemma decrement_increment_inverse_witness :
  - 2 ^ 53 < 0 <= 2 ^ 53
  /\ Store.increment (Store.decrement Store.useStore) = Store.useStore.
Proof. split; [lia |]. apply (decrement_increment_inverse Store.useStore). simpl. lia. Defined.

(** At [-2^53] the decrement changes nothing and the increment goes up. *)
Example decrement_increment_at_the_lower_end :
  Store.count (Store.increment (Store.decrement {| Store.count := - 2 ^ 53; Store.text := "" |}))
  = - 2 ^ 53 + 1.
Proof. reflexivity. Qed.

(** ** The counters on component state *)

Lemma play_rendered (events : list Local.UIEvent) (c : Local.Component) :
  Local.rendered c = Local.count (Local.cells c) ->
  Local.rendered (Local.play events c) = Local.count (Local.cells (Local.play events c)).
Proof.
  revert c. induction events as [| e events IH]; intros c Hc; [exact Hc |].
  simpl. apply IH. reflexivity.
Qed.

Lemma play_simulates (events : list Local.UIEvent) (c : Local.Component) (s : Store.Store) :
  Local.rendered c = Local.count (Local.cells c) ->
  Local.count (Local.cells c) = Store.count s ->
  Local.text (Local.cells c) = Store.text s ->
  Local.count (Local.cells (Local.play events c)) = Store.count (Store.run (map Local.action events) s)
  /\ Local.text (Local.cells (Local.play events c)) = Store.text (Store.run (map Local.action events) s).
Proof.
  revert c s. induction events as [| e events IH]; intros c s Hr Hc Ht; [auto |].
  simpl. apply IH; [reflexivity | |]; destruct e; simpl; congruence.
Qed.

(** X4: the counter kept in component state and the counter kept in the
    store show the same count and the same text after the same clicks and
    keystrokes, although the component's handlers add to the count their
    render read and the store's add to the current count. *)
Theorem local_counter_matches_store (events : list Local.UIEvent) :
  Local.count (Local.cells (Local.play events Local.mounted))
    = Store.count (Store.run (map Local.action events) Store.useStore)
  /\ Local.text (Local.cells (Local.play events Local.mounted))
    = Store.text (Store.run (map Local.action events) Store.useStore).
Proof. now apply play_simulates. Qed.

(** The handler of one render, called twice before the next render, counts
    once; the store's action counts twice. *)
Lemma stale_closure_counts_once (c : Z) (st : Local.State) :
  Local.increment c (Local.increment c st) = Local.increment c st.
Proof. reflexivity. Qed.

(** ** The authentication hook *)

Lemma auth_run_snoc (acts : list Auth.Action) (a : Auth.Action) (st : Auth.State) :
  Auth.run (acts ++ [a]) st = Auth.dispatch a (Auth.run acts st).
Proof. unfold Auth.run. now rewrite fold_left_app. Qed.

(** X5: the guarded form is rendered exactly when the last action was a
    login, whatever the credentials; before any action, and after a logout,
    the prompt to log in is shown.  Every action adds one line to the
    console. *)
Theorem guarded_form_follows_last_action (acts : list Auth.Action) :
  Auth.AuthenticatedForm (Auth.run acts Auth.useAuth) =
    match last acts with
    | Some (Auth.Login _) => Auth.PrivacySettingsFormView
    | Some Auth.Logout | None => Auth.Paragraph "You need to log in to access this form."
    end
  /\ length (Auth.console (Auth.run acts Auth.useAuth)) = length acts.
Proof.
  induction acts as [| a acts IH] using rev_ind; [split; reflexivity |].
  rewrite auth_run_snoc, last_snoc, length_app. destruct IH as [_ Hlen].
  destruct a; simpl; rewrite length_app, Hlen; simpl; split; (reflexivity || lia).
Qed.

(** ** What the registration schema accepts *)

Section Acceptance.

Variable emailRegex : string -> bool.

Local Abbreviation parse := (Zod.parse emailRegex).

Lemma nonempty_accepts (m : string) (x : JSValue) :
  Zod.issues (parse (Zod.ZodString [Zod.min 1 m]) x) = []
  <-> exists s, x = JString s /\ s <> "".
Proof.
  destruct x as [| | b | n | s]; simpl;
    try (split; [discriminate | intros (s' & Hs & _); discriminate]).
  destruct s as [| a s]; simpl.
  - split; [discriminate | intros (s' & Hs & Hne); congruence].
  - split; [eauto |]. reflexivity.
Qed.

Lemma email_accepts (m : string) (x : JSValue) :
  Zod.issues (parse (Zod.ZodString [Zod.email m]) x) = []
  <-> exists s, x = JString s /\ emailRegex s = true.
Proof.
  destruct x as [| | b | n | s]; simpl;
    try (split; [discriminate | intros (s' & Hs & _); discriminate]).
  destruct (emailRegex s) eqn:He; simpl.
  - split; eauto.
  - split; [discriminate | intros (s' & Hs & He'); congruence].
Qed.

Lemma refined_string_accepts (rule : string -> bool) (m : string) (x : JSValue) :
  Zod.issues (parse (Zod.ZodEffects (Zod.ZodString []) (on_string rule) m) x) = []
  <-> exists s, x = JString s /\ rule s = true.
Proof.
  destruct x as [| | b | n | s]; simpl;
    try (split; [discriminate | intros (s' & Hs & _); discriminate]).
  destruct (rule s) eqn:He; simpl.
  - split; eauto.
  - split; [discriminate | intros (s' & Hs & He'); congruence].
Qed.

Lemma optional_age_accepts (m : string) (x : JSValue) :
  Zod.issues (parse (Zod.ZodOptional (Zod.ZodNumber [Zod.positive m; Zod.int])) x) = []
  <-> x = JUndefined \/ positive_integer x.
Proof.
  unfold positive_integer.
  destruct x as [| | b | n | s]; simpl;
    try (split; [discriminate | intros [H | (q & H & _)]; discriminate]).
  - split; auto.
  - destruct n as [| neg | q]; simpl.
    + split; [discriminate | intros [H | (q & H & _)]; discriminate].
    + destruct neg; simpl;
        (split; [discriminate | intros [H | (q & H & _)]; discriminate]).
    + repeat case_bool_decide; simpl.
      * split; [eauto |]. reflexivity.
      * split; [discriminate | intros [Hx | (q' & Hx & Hp & Hi)]; simplify_eq; tauto].
      * split; [discriminate | intros [Hx | (q' & Hx & Hp & Hi)]; simplify_eq; tauto].
      * split; [discriminate | intros [Hx | (q' & Hx & Hp & Hi)]; simplify_eq; tauto].
Qed.

Lemma optional_gender_accepts (x : JSValue) :
  Zod.issues (parse (Zod.ZodOptional (Zod.ZodEnum ["male"; "female"] None)) x) = []
  <-> x = JUndefined \/ x = JString "male" \/ x = JString "female".
Proof.
  destruct x as [| | b | n | s]; simpl;
    try (split; [discriminate | intros [H | [H | H]]; discriminate]).
  - split; auto.
  - case_bool_decide as Hin; simpl.
    + split; [| reflexivity]. intros _. set_solver.
    + split; [discriminate |]. intros [H | [H | H]]; simplify_eq;
        exfalso; apply Hin; set_solver.
Qed.

Lemma must_be_true_accepts (m : string) (x : JSValue) :
  Zod.issues (parse (Zod.ZodEffects Zod.ZodBoolean is_true m) x) = [] <-> x = JBool true.
Proof.
  destruct x as [| | b | n | s]; simpl; try (split; discriminate).
  destruct b; simpl; split; (reflexivity || discriminate).
Qed.

Lemma privacy_accepts (em : option string) (x : JSValue) :
  Zod.issues (parse (Zod.ZodEnum ["public"; "private"; "protected"] em) x) = []
  <-> x = JString "public" \/ x = JString "private" \/ x = JString "protected".
Proof.
  destruct x as [| | b | n | s]; simpl;
    try (split; [discriminate | intros [H | [H | H]]; discriminate]).
  case_bool_decide as Hin; simpl.
  - split; [| reflexivity]. intros _. set_solver.
  - split; [discriminate |]. intros [H | [H | H]]; simplify_eq;
      exfalso; apply Hin; set_solver.
Qed.

End Acceptance.

(** [validate] answers [Valid] exactly when no key has an issue. *)
Lemma valid_iff_no_issue (newDate : string -> JSDate) (emailRegex : string -> bool)
    (f : Form) (today : DateFields) (v : FormValues) :
  (exists record, validate newDate emailRegex f today v = Valid record)
  <-> Forall (fun kt => Zod.issues (Zod.parse_key emailRegex v kt) = [])
        (schema_of newDate f today).
Proof.
  pose proof (validate_cases newDate emailRegex f today v) as Hcases.
  destruct (validate newDate emailRegex f today v) as [record | errs].
  - split; eauto.
  - destruct Hcases as [Hex _]. split; [intros [r Hr]; discriminate |].
    intros Hall. apply Exists_exists in Hex as (kt & Hin & Hne).
    rewrite Forall_forall in Hall. now destruct (Hne (Hall kt Hin)).
Qed.

(** X6: the registration form's [schema] lets a value record through exactly
    when [name] is a non-empty string, [email] a string of the email pattern,
    [date_of_birth] a string that passes the age rule, [age] undefined or a
    positive integer, [gender] undefined or one of its two tags, both boxes
    [true] and [privacySetting] one of its three tags. *)
Theorem schema_accepts (newDate : string -> JSDate) (emailRegex : string -> bool)
    (today : DateFields) (v : FormValues) :
  (exists record, validate newDate emailRegex RegistrationForm today v = Valid record)
  <-> accepted emailRegex (age_rule newDate RegistrationForm today) v.
Proof.
  rewrite valid_iff_no_issue. unfold schema_of, schema. rewrite !Forall_cons, Forall_nil.
  unfold Zod.parse_key. cbn [fst snd].
  rewrite nonempty_accepts, email_accepts, refined_string_accepts, optional_age_accepts,
    optional_gender_accepts, !must_be_true_accepts, privacy_accepts.
  split.
  - intros (? & ? & ? & ? & ? & ? & ? & ? & _). now constructor.
  - intros []. tauto.
Qed.

(** ** The validated record *)

Section Record_.

Variable emailRegex : string -> bool.

(** A schema without a default hands its input on unchanged. *)
Lemma parse_value (t : Zod.ZodType) (x : JSValue) :
  has_default t = false ->
  Zod.status (Zod.parse emailRegex t x) <> Zod.aborted ->
  Zod.value (Zod.parse emailRegex t x) = x.
Proof.
  revert x. induction t as [cs | cs | | vs em | lit | t IH | t IH d | t IH p m];
    intros x Hd Hst; simpl in *; try discriminate.
  - destruct x; simpl in *; congruence.
  - destruct x as [| | | n |]; simpl in *; try congruence.
    destruct n; simpl in *; congruence.
  - destruct x; simpl in *; congruence.
  - destruct x; simpl in *; try congruence.
    case_bool_decide; simpl in *; congruence.
  - destruct (strict_equal x (JBool lit)); simpl in *; congruence.
  - destruct x; simpl in *; auto.
  - destruct (Zod.status (Zod.parse emailRegex t x)) eqn:Hs; simpl in *; try congruence;
      destruct (p _); simpl; apply IH; auto; congruence.
Qed.

Lemma object_value_fold_other (shape : Zod.Shape) (data out : FormValues) (k : string) :
  k ∉ shape.*1 ->
  fold_left
    (fun out kt =>
       let v := Zod.value (Zod.parse_key emailRegex data kt) in
       if negb (is_undefined v) || bool_decide (is_Some (data !! kt.1))
       then <[kt.1 := v]> out else out) shape out !! k = out !! k.
Proof.
  revert out. induction shape as [| kt shape IH]; intros out Hk; [reflexivity |].
  simpl in *. rewrite IH by set_solver.
  destruct (_ || _); [| reflexivity]. rewrite lookup_insert_ne; [reflexivity | set_solver].
Qed.

Lemma object_value_fold_key (shape : Zod.Shape) (data out : FormValues)
    (kt : string * Zod.ZodType) :
  NoDup shape.*1 -> kt ∈ shape -> out !! kt.1 = None ->
  fold_left
    (fun out kt =>
       let v := Zod.value (Zod.parse_key emailRegex data kt) in
       if negb (is_undefined v) || bool_decide (is_Some (data !! kt.1))
       then <[kt.1 := v]> out else out) shape out !! kt.1 =
    (if negb (is_undefined (Zod.value (Zod.parse_key emailRegex data kt)))
        || bool_decide (is_Some (data !! kt.1))
     then Some (Zod.value (Zod.parse_key emailRegex data kt)) else None).
Proof.
  revert out. induction shape as [| kt' shape IH]; intros out Hnd Hin Hout; [inversion Hin |].
  simpl in Hnd. apply NoDup_cons in Hnd as [Hfresh Hnd].
  apply elem_of_cons in Hin as [<- | Hin]; simpl.
  - rewrite object_value_fold_other by exact Hfresh.
    destruct (_ || _); [now rewrite lookup_insert_eq | exact Hout].
  - apply IH; [exact Hnd | exact Hin |].
    destruct (negb (is_undefined (Zod.value (Zod.parse_key emailRegex data kt')))
              || bool_decide (is_Some (data !! kt'.1))); [| exact Hout].
    rewrite lookup_insert_ne; [exact Hout |].
    intros Heq. apply Hfresh. rewrite Heq. apply list_elem_of_fmap. eauto.
Qed.

(** The output object holds, for a key of the shape, the parsed value when
    it is defined or the key was in the input, and no other key. *)
Lemma object_value_lookup (shape : Zod.Shape) (data : FormValues) (k : string) :
  NoDup shape.*1 ->
  (forall kt, kt ∈ shape -> kt.1 = k ->
     Zod.object_value emailRegex shape data !! k =
       (if negb (is_undefined (Zod.value (Zod.parse_key emailRegex data kt)))
           || bool_decide (is_Some (data !! k))
        then Some (Zod.value (Zod.parse_key emailRegex data kt)) else None))
  /\ (k ∉ shape.*1 -> Zod.object_value emailRegex shape data !! k = None).
Proof.
  intros Hnd. unfold Zod.object_value. split.
  - intros kt Hin <-. now apply object_value_fold_key.
  - intros Hk. now rewrite object_value_fold_other.
Qed.

End Record_.

(** What each key of the two schemas parses to when it is valid: its input,
    but for the defaulted [privacy]. *)
Lemma schema_value (newDate : string -> JSDate) (emailRegex : string -> bool)
    (f : Form) (today : DateFields) (v : FormValues) (kt : string * Zod.ZodType) :
  kt ∈ schema_of newDate f today ->
  Zod.status (Zod.parse_key emailRegex v kt) = Zod.valid ->
  Zod.value (Zod.parse_key emailRegex v kt) =
    (if bool_decide (kt.1 = "privacy") && is_undefined (read v kt.1)
     then JString "public" else read v kt.1).
Proof.
  intros Hin Hst.
  assert (has_default kt.2 = false \/ kt.1 = "privacy"
          /\ kt.2 = Zod.ZodDefault (Zod.ZodEnum ["public"; "private"; "protected"] None)
                      (JString "public")) as [Hd | [Hk Ht]].
  { destruct f; simpl in Hin; set_unfold in Hin;
      repeat (destruct Hin as [-> | Hin]; [auto |]); try subst kt; auto; contradiction. }
  - unfold Zod.parse_key in *. rewrite parse_value; [| exact Hd | congruence].
    destruct (bool_decide (kt.1 = "privacy")) eqn:Hp; [| reflexivity]. simpl.
    apply bool_decide_eq_true in Hp.
    destruct f; simpl in Hin; set_unfold in Hin;
      repeat (destruct Hin as [-> | Hin]; [try discriminate |]);
      try contradiction; try subst kt; try discriminate.
  - destruct kt as [k t]. simpl in *. subst k t. unfold Zod.parse_key in *. simpl in *.
    destruct (read v "privacy"); simpl in *; try reflexivity; try discriminate.
    case_bool_decide; simpl in *; [reflexivity | discriminate].
Qed.

(** X7: the record a successful validation hands to [onSubmit] holds the
    declared fields only, each with the value it has in the form, a field
    absent from the values staying absent; the privacy-settings schema
    alone fills in its default, ["public"], for an undefined [privacy]. *)
Theorem validated_record (newDate : string -> JSDate) (emailRegex : string -> bool)
    (f : Form) (today : DateFields) (v record : FormValues) :
  validate newDate emailRegex f today v = Valid record ->
  forall k,
    record !! k =
      if bool_decide (k ∈ declared f)
      then (if bool_decide (k = "privacy") && is_undefined (read v k)
            then Some (JString "public") else v !! k)
      else None.
Proof.
  intros Hvalid k.
  assert (Forall (fun kt => Zod.issues (Zod.parse_key emailRegex v kt) = [])
            (schema_of newDate f today)) as Hall
    by (apply valid_iff_no_issue; eauto).
  unfold validate, Zod.safeParse in Hvalid.
  destruct (Zod.object_status emailRegex (schema_of newDate f today) v); try discriminate.
  injection Hvalid as <-.
  assert (NoDup (schema_of newDate f today).*1) as Hnd
    by (rewrite schema_keys; apply declared_NoDup).
  destruct (object_value_lookup emailRegex (schema_of newDate f today) v k Hnd) as [Hin Hout].
  destruct (decide (k ∈ (schema_of newDate f today).*1)) as [Hk | Hk];
    [| rewrite bool_decide_eq_false_2 by (now rewrite <- (schema_keys newDate f today));
       now apply Hout].
  rewrite bool_decide_eq_true_2 by (now rewrite <- (schema_keys newDate f today)).
  apply list_elem_of_fmap in Hk as (kt & -> & Hkt).
  rewrite (Hin kt Hkt eq_refl).
  rewrite Forall_forall in Hall.
  rewrite (schema_value newDate emailRegex f today v kt Hkt)
    by (apply parse_valid_iff, Hall, Hkt).
  unfold read. destruct (bool_decide (kt.1 = "privacy")); simpl;
    destruct (v !! kt.1) as [x |]; simpl; try reflexivity.
  - destruct x; reflexivity.
  - destruct x; reflexivity.
Qed.

Lemma validated_record_witness :
  exists record,
    validate Host.isoDate Host.zodEmail RegistrationForm Sample.today
      (<["nickname" := JString "Al"]> Sample.alice) = Valid record
    /\ record !! "nickname" = None
    /\ record !! "name" = Some (JString "Alice")
    /\ record !! "age" = None.
Proof.
  destruct (validate Host.isoDate Host.zodEmail RegistrationForm Sample.today
              (<["nickname" := JString "Al"]> Sample.alice)) as [record | errs] eqn:Hv;
    [| vm_compute in Hv; discriminate].
  exists record. split; [reflexivity |].
  pose proof (validated_record Host.isoDate Host.zodEmail RegistrationForm Sample.today
                _ record Hv) as Hrec.
  repeat split; rewrite Hrec; vm_compute; reflexivity.
Defined.

(** ** Messages *)

(** The error record of a failed validation, key by key. *)
Lemma invalid_lookup (newDate : string -> JSDate) (emailRegex : string -> bool)
    (f : Form) (today : DateFields) (v : FormValues) (errs : FieldErrors)
    (kt : string * Zod.ZodType) :
  validate newDate emailRegex f today v = Invalid errs ->
  kt ∈ schema_of newDate f today ->
  errs !! kt.1 = head (Zod.issues (Zod.parse_key emailRegex v kt)).
Proof.
  intros Hv Hin. pose proof (validate_cases newDate emailRegex f today v) as Hcases.
  rewrite Hv in Hcases. destruct Hcases as [_ Hall].
  rewrite Forall_forall in Hall. now apply Hall.
Qed.

(** X8: whatever is wrong with [privacySetting] (missing, not a string, not
    one of the three tags), the message of the registration form is the one
    of the schema's [errorMap], [Select a valid privacy option]; there is no
    message exactly when the value is one of the three tags. *)
Theorem privacy_setting_message (newDate : string -> JSDate) (emailRegex : string -> bool)
    (today : DateFields) (v : FormValues) (errs : FieldErrors) :
  validate newDate emailRegex RegistrationForm today v = Invalid errs ->
  (errs !! "privacySetting" = None
   \/ errs !! "privacySetting" = Some "Select a valid privacy option")
  /\ (errs !! "privacySetting" = None <->
      read v "privacySetting" = JString "public"
      \/ read v "privacySetting" = JString "private"
      \/ read v "privacySetting" = JString "protected").
Proof.
  intros Hv.
  assert (errs !! "privacySetting" =
          head (Zod.issues (Zod.parse_key emailRegex v
                  ("privacySetting",
                   Zod.ZodEnum ["public"; "private"; "protected"]
                     (Some "Select a valid privacy option"))))) as ->.
  { apply (invalid_lookup newDate emailRegex RegistrationForm today v errs
             ("privacySetting",
              Zod.ZodEnum ["public"; "private"; "protected"]
                (Some "Select a valid privacy option")) Hv).
    simpl. set_solver. }
  rewrite <- (privacy_accepts emailRegex (Some "Select a valid privacy option")).
  unfold Zod.parse_key. simpl.
  destruct (read v "privacySetting"); simpl; try (split; [auto | split; discriminate]).
  case_bool_decide; simpl; split; auto; split; auto; discriminate.
Qed.

Lemma privacy_setting_message_witness :
  exists errs,
    validate Host.isoDate Host.zodEmail RegistrationForm Sample.today
      (<["privacySetting" := JNumber (Finite (Q2Qc 3))]> Sample.alice) = Invalid errs
    /\ errs !! "privacySetting" = Some "Select a valid privacy option".
Proof.
  destruct (validate Host.isoDate Host.zodEmail RegistrationForm Sample.today
              (<["privacySetting" := JNumber (Finite (Q2Qc 3))]> Sample.alice))
    as [record | errs] eqn:Hv; [vm_compute in Hv; discriminate |].
  exists errs. split; [reflexivity |].
  destruct (privacy_setting_message Host.isoDate Host.zodEmail Sample.today _ errs Hv)
    as [[Hnone | Hsome] Hiff]; [| exact Hsome].
  apply Hiff in Hnone. vm_compute in Hnone.
  destruct Hnone as [H | [H | H]]; discriminate.
Defined.

(** X9: a birth-date string that is not a date (the empty string of an
    untouched date input among them) makes the year [NaN]; every comparison
    with [NaN] is false, so either form rejects it with the message of its age
    rule. *)
Theorem invalid_date_is_rejected (newDate : string -> JSDate) (emailRegex : string -> bool)
    (f : Form) (today : DateFields) (v : FormValues) (s : string) :
  read v (birth_key f) = JString s ->
  newDate s = InvalidDate ->
  age_rule newDate f today s = false
  /\ exists errs, validate newDate emailRegex f today v = Invalid errs
       /\ errs !! birth_key f = Some (birth_message f).
Proof.
  intros Hread Hdate.
  assert (age_rule newDate f today s = false) as Hrule.
  { destruct f; simpl; unfold calculateAge, birthDate_refinement; rewrite Hdate; reflexivity. }
  split; [exact Hrule |].
  destruct f; simpl in *.
  - apply (validate_field_issue newDate emailRegex RegistrationForm today v
             ("date_of_birth",
              Zod.ZodEffects (Zod.ZodString [])
                (on_string (fun birthdate => (calculateAge newDate today birthdate >= Some 18)%num))
                "You must be at least 18 years old")).
    + simpl. set_solver.
    + unfold Zod.parse_key. simpl. rewrite Hread. simpl. now rewrite Hrule.
  - apply (validate_field_issue newDate emailRegex PrivacySettingsForm today v
             ("birthDate",
              Zod.ZodEffects (Zod.ZodString []) (on_string (birthDate_refinement newDate today))
                "Age must be 18 or older")).
    + simpl. set_solver.
    + unfold Zod.parse_key. simpl. rewrite Hread. simpl. now rewrite Hrule.
Qed.

Lemma invalid_date_is_rejected_witness :
  read (initialValues RegistrationForm) (birth_key RegistrationForm) = JString ""
  /\ Host.isoDate "" = InvalidDate
  /\ exists errs,
       validate Host.isoDate Host.zodEmail RegistrationForm Sample.today
         (initialValues RegistrationForm) = Invalid errs
       /\ errs !! "date_of_birth" = Some "You must be at least 18 years old".
Proof.
  split; [reflexivity |]. split; [reflexivity |].
  apply (invalid_date_is_rejected Host.isoDate Host.zodEmail RegistrationForm Sample.today
           (initialValues RegistrationForm) ""); reflexivity.
Defined.

(** X10: the age [calculateAge] computes for a birth date never goes down as
    the current day moves on, so a birth date the registration form accepts
    on one day is accepted on every later day. *)
Theorem age_never_decreases (newDate : string -> JSDate) (t1 t2 b : DateFields) (s : string) :
  newDate s = ValidDate b ->
  on_or_before t1 t2 ->
  exists a1 a2,
    calculateAge newDate t1 s = Some a1
    /\ calculateAge newDate t2 s = Some a2
    /\ a1 <= a2
    /\ (age_rule newDate RegistrationForm t1 s = true ->
        age_rule newDate RegistrationForm t2 s = true).
Proof.
  intros Hb Hle. unfold age_rule.
  rewrite (calculateAge_valid newDate t1 b s Hb), (calculateAge_valid newDate t2 b s Hb).
  eexists _, _. split; [reflexivity |]. split; [reflexivity |].
  assert ((if (month t1 <? month b) || ((month t1 =? month b) && (date t1 <? date b))
           then fullYear t1 - fullYear b - 1 else fullYear t1 - fullYear b)
          <= (if (month t2 <? month b) || ((month t2 =? month b) && (date t2 <? date b))
              then fullYear t2 - fullYear b - 1 else fullYear t2 - fullYear b)) as Hmono.
  { unfold on_or_before in Hle.
    destruct (Z.ltb_spec (month t1) (month b)), (Z.ltb_spec (month t2) (month b)),
      (Z.eqb_spec (month t1) (month b)), (Z.eqb_spec (month t2) (month b)),
      (Z.ltb_spec (date t1) (date b)), (Z.ltb_spec (date t2) (date b)); simpl; lia. }
  split; [exact Hmono |].
  simpl. rewrite !Z.leb_le. lia.
Qed.

Lemma age_never_decreases_witness :
  Host.isoDate "2008-11-04" = ValidDate (Sample.day 2008 11 4)
  /\ on_or_before Sample.today Sample.tomorrow
  /\ calculateAge Host.isoDate Sample.today "2008-11-04" = Some 17
  /\ calculateAge Host.isoDate Sample.tomorrow "2008-11-04" = Some 18.
Proof.
  assert (Host.isoDate "2008-11-04" = ValidDate (Sample.day 2008 11 4)) as Hb by reflexivity.
  assert (on_or_before Sample.today Sample.tomorrow) as Hle
    by (unfold on_or_before; simpl; lia).
  split; [exact Hb |]. split; [exact Hle |].
  destruct (age_never_decreases Host.isoDate Sample.today Sample.tomorrow _ _ Hb Hle)
    as (a1 & a2 & H1 & H2 & _).
  split; [rewrite H1 | rewrite H2]; vm_compute in H1, H2; congruence.
Defined.

(** ** Submissions the registration form blocks *)

Lemma posts_send_get (email_ : string) (st : FormState) :
  posts (send (GET_check_email email_) st) = posts st.
Proof. unfold posts. simpl. rewrite omap_app. simpl. apply app_nil_r. Qed.

Lemma is_post_in_posts (st : FormState) (i : nat) :
  is_post st i = true -> exists d, d ∈ posts st.
Proof.
  unfold is_post, posts. destruct (requests st !! i) as [[e | d] |] eqn:Hi; try discriminate.
  intros _. exists d. apply list_elem_of_omap. exists (POST_users d).
  split; [| reflexivity]. eapply list_elem_of_lookup_2, Hi.
Qed.

(** An optional field that still holds what its untouched input holds fails
    the schema: the empty number input reads [NaN], the unselected gender the
    empty string, and neither is [undefined]. *)
Lemma untouched_optional_invalid (newDate : string -> JSDate) (emailRegex : string -> bool)
    (today : DateFields) (v : FormValues) (name : string) :
  name = "age" \/ name = "gender" ->
  read v name = read (initialValues RegistrationForm) name ->
  exists errs, validate newDate emailRegex RegistrationForm today v = Invalid errs
    /\ is_Some (errs !! name).
Proof.
  intros [-> | ->] Hread.
  - destruct (validate_field_issue newDate emailRegex RegistrationForm today v
                ("age", Zod.ZodOptional
                          (Zod.ZodNumber [Zod.positive "Age must be a positive number"; Zod.int]))
                "Expected number, received nan") as (errs & Hv & He).
    + simpl. set_solver.
    + unfold Zod.parse_key. simpl. rewrite Hread. reflexivity.
    + eauto.
  - destruct (validate_field_issue newDate emailRegex RegistrationForm today v
                ("gender", Zod.ZodOptional (Zod.ZodEnum ["male"; "female"] None))
                "Invalid enum value. Expected 'male' | 'female', received ''")
      as (errs & Hv & He).
    + simpl. set_solver.
    + unfold Zod.parse_key. simpl. rewrite Hread. reflexivity.
    + eauto.
Qed.

Lemma step_untouched (newDate : string -> JSDate) (emailRegex : string -> bool)
    (name : string) (t : Z) (e : Event) (st st' : FormState) :
  name = "age" \/ name = "gender" ->
  untouched name e ->
  step newDate emailRegex RegistrationForm t e st = Some st' ->
  values st !! name = initialValues RegistrationForm !! name /\ posts st = [] ->
  values st' !! name = initialValues RegistrationForm !! name /\ posts st' = [].
Proof.
  intros Hname Hun Hstep [Hv Hp]. unfold step in Hstep.
  destruct (t <? now st); [discriminate |].
  destruct e as [n x | email_ | fn | i r | today | i r |]; simpl in Hun.
  - injection Hstep as <-. simpl. now rewrite lookup_insert_ne.
  - injection Hstep as <-. simpl. split; [| exact Hp].
    rewrite lookup_insert_ne; [exact Hv | destruct Hname as [-> | ->]; discriminate].
  - unfold timerExpired in Hstep. simpl in Hstep.
    destruct (pending st !! fn) as [[lastCallTime lastArgs] |]; [| discriminate].
    destruct (wait <=? t - lastCallTime); [| discriminate].
    injection Hstep as <-. rewrite posts_send_get. auto.
  - destruct (is_lookup _ i); [| discriminate]. injection Hstep as <-.
    destruct r as [a |]; simpl; [| auto].
    unfold posts.
    destruct (setEmailTaken_fields (negb (truthy a)) (settle i (set_now t st)))
      as (-> & _ & -> & _). auto.
  - injection Hstep as <-. unfold handleSubmit. simpl.
    destruct (untouched_optional_invalid newDate emailRegex today (values st) name Hname)
      as (errs & -> & _); [unfold read; now rewrite Hv |]. auto.
  - destruct (is_post _ i) eqn:Hpost; [| discriminate].
    apply is_post_in_posts in Hpost as [d Hd].
    unfold posts in Hd, Hp. simpl in Hd. rewrite Hp in Hd. inversion Hd.
  - injection Hstep as <-. auto.
Qed.

Lemma run_untouched (newDate : string -> JSDate) (emailRegex : string -> bool)
    (name : string) (trace : list (Z * Event)) (st st' : FormState) :
  name = "age" \/ name = "gender" ->
  Forall (untouched name) trace.*2 ->
  run newDate emailRegex RegistrationForm trace st = Some st' ->
  values st !! name = initialValues RegistrationForm !! name /\ posts st = [] ->
  values st' !! name = initialValues RegistrationForm !! name /\ posts st' = [].
Proof.
  intros Hname. revert st.
  induction trace as [| [t e] trace IH]; intros st Hun Hrun Hinv; simpl in *.
  - now injection Hrun as <-.
  - apply Forall_cons in Hun as [He Hun].
    destruct (step newDate emailRegex RegistrationForm t e st) as [st1 |] eqn:Hstep;
      [| discriminate].
    eapply IH; eauto using step_untouched.
Qed.

(** X11: as long as the age input, or the gender select, of the registration
    form has not been changed, no submission goes through: whatever else
    happens, no POST is sent, and a submit ends with an error on that field.
    The two fields are optional in the schema only for a value that is
    [undefined], which the inputs never produce. *)
Theorem untouched_optional_field_blocks_submission
    (newDate : string -> JSDate) (emailRegex : string -> bool)
    (name : string) (trace : list (Z * Event)) (st : FormState) :
  name = "age" \/ name = "gender" ->
  Forall (untouched name) trace.*2 ->
  run newDate emailRegex RegistrationForm trace (init RegistrationForm) = Some st ->
  posts st = []
  /\ forall today, exists errs,
       validate newDate emailRegex RegistrationForm today (values st) = Invalid errs
       /\ is_Some (errs !! name).
Proof.
  intros Hname Hun Hrun.
  destruct (run_untouched newDate emailRegex name trace (init RegistrationForm) st
              Hname Hun Hrun) as [Hv Hp]; [auto |].
  split; [exact Hp |]. intros today.
  apply untouched_optional_invalid; [exact Hname |]. unfold read. now rewrite Hv.
Qed.

Lemma untouched_optional_field_blocks_submission_witness :
  ("gender" = "age" \/ "gender" = "gender")
  /\ Forall (untouched "gender")
       (Sample2.alice_skips_gender ++ [(40, Submit Sample.today)]).*2
  /\ exists st,
       run Host.isoDate Host.zodEmail RegistrationForm
         (Sample2.alice_skips_gender ++ [(40, Submit Sample.today)])
         (init RegistrationForm) = Some st
       /\ posts st = [].
Proof.
  assert (Forall (untouched "gender")
            (Sample2.alice_skips_gender ++ [(40, Submit Sample.today)]).*2) as Hun
    by (simpl; repeat constructor; simpl; discriminate).
  split; [auto |]. split; [exact Hun |].
  destruct (run Host.isoDate Host.zodEmail RegistrationForm
              (Sample2.alice_skips_gender ++ [(40, Submit Sample.today)])
              (init RegistrationForm)) as [st |] eqn:Hrun; [| vm_compute in Hrun; discriminate].
  exists st. split; [reflexivity |].
  apply (untouched_optional_field_blocks_submission Host.isoDate Host.zodEmail "gender"
           _ st (or_intror eq_refl) Hun Hrun).
Defined.

(** X12: when the gender is the only field that fails, the registration form
    blocks the submission without a word: no request is sent, the error is
    recorded, and the page displays no message at all, the paragraph for the
    gender error being commented out. *)
Theorem gender_failure_is_silent (newDate : string -> JSDate) (emailRegex : string -> bool)
    (today : DateFields) (t : Z) (st : FormState) (errs : FieldErrors) :
  now st <= t ->
  validate newDate emailRegex RegistrationForm today (values st) = Invalid errs ->
  dom errs = {[ "gender" ]} ->
  exists st', step newDate emailRegex RegistrationForm t (Submit today) st = Some st'
    /\ requests st' = requests st
    /\ is_Some (errors st' !! "gender")
    /\ displayedErrors RegistrationForm (errors st') = [].
Proof.
  intros Ht Hv Hdom. unfold step. rewrite (proj2 (Z.ltb_ge t (now st)) Ht).
  eexists. split; [reflexivity |]. unfold handleSubmit. simpl. rewrite Hv. simpl.
  split; [reflexivity |]. split.
  - apply elem_of_dom. rewrite Hdom. set_solver.
  - unfold displayedErrors. simpl.
    assert (forall k, k <> "gender" -> errs !! k = None) as Hnone.
    { intros k Hk. apply not_elem_of_dom. rewrite Hdom. set_solver. }
    rewrite !Hnone by discriminate. reflexivity.
Qed.

Lemma gender_failure_is_silent_witness :
  now Sample2.no_gender <= 40
  /\ exists errs st',
       validate Host.isoDate Host.zodEmail RegistrationForm Sample.today
         (values Sample2.no_gender) = Invalid errs
       /\ dom errs = {[ "gender" ]}
       /\ step Host.isoDate Host.zodEmail RegistrationForm 40 (Submit Sample.today)
            Sample2.no_gender = Some st'
       /\ displayedErrors RegistrationForm (errors st') = [].
Proof.
  split; [vm_compute; discriminate |].
  assert (validate Host.isoDate Host.zodEmail RegistrationForm Sample.today
            (values Sample2.no_gender)
          = Invalid {[ "gender" :=
                         "Invalid enum value. Expected 'male' | 'female', received ''" ]})
    as Hv by (vm_compute; reflexivity).
  destruct (gender_failure_is_silent Host.isoDate Host.zodEmail Sample.today 40
              Sample2.no_gender _ ltac:(vm_compute; discriminate) Hv (dom_singleton_L _ _))
    as (st' & Hstep & _ & _ & Hshown).
  eexists _, st'. split; [exact Hv |]. split; [apply dom_singleton_L |]. auto.
Defined.

(** ** A burst of keystrokes *)

Lemma run_form_app (newDate : string -> JSDate) (emailRegex : string -> bool)
    (f : Form) (a b : list (Z * Event)) (st : FormState) :
  run newDate emailRegex f (a ++ b) st =
    match run newDate emailRegex f a st with
    | Some st1 => run newDate emailRegex f b st1
    | None => None
    end.
Proof.
  revert st. induction a as [| [t e] a IH]; intros st; simpl; [reflexivity |].
  destruct (step newDate emailRegex f t e st); [apply IH | reflexivity].
Qed.

(** Keystrokes with no render in between all reach the debounced function of
    the same render, which remembers the last one. *)
Lemma run_burst (newDate : string -> JSDate) (emailRegex : string -> bool)
    (keys : list (Z * string)) (st : FormState) (t : Z) (v : string) :
  ascending (now st) keys ->
  last keys = Some (t, v) ->
  exists st1,
    run newDate emailRegex RegistrationForm (burst keys) st = Some st1
    /\ render st1 = render st
    /\ requests st1 = requests st
    /\ now st1 = t
    /\ pending st1 = <[render st := (t, v)]> (pending st)
    /\ values st1 !! "email" = Some (JString v).
Proof.
  revert st. induction keys as [| [t1 v1] keys IH]; intros st Hasc Hlast; [discriminate |].
  simpl in Hasc. destruct Hasc as [Ht1 Hasc].
  simpl. unfold step. rewrite (proj2 (Z.ltb_ge t1 (now st)) Ht1).
  destruct keys as [| k keys].
  - injection Hlast as -> ->. eexists. split; [reflexivity |]. simpl.
    repeat split; auto. apply lookup_insert_eq.
  - destruct (IH (handleEmailChange v1 (set_now t1 st)) Hasc Hlast)
      as (st1 & Hrun & Hr & Hq & Hn & Hp & Hv).
    exists st1. split; [exact Hrun |]. simpl in *.
    repeat split; auto. rewrite Hp. apply insert_insert_eq.
Qed.

(** X13: a burst of any number of changes of the email, with no render in
    between, triggers one lookup, for the last value typed: the timer of the
    debounced function sends it once the quiet window has passed since the
    last change, and the function has nothing pending afterwards. *)
Theorem burst_triggers_one_lookup (newDate : string -> JSDate) (emailRegex : string -> bool)
    (keys : list (Z * string)) (st : FormState) (t t3 : Z) (v : string) :
  ascending (now st) keys ->
  last keys = Some (t, v) ->
  t + wait <= t3 ->
  exists st',
    run newDate emailRegex RegistrationForm
      (burst keys ++ [(t3, TimerFires (render st))]) st = Some st'
    /\ lookups st' = lookups st ++ [v]
    /\ pending st' = delete (render st) (pending st)
    /\ values st' !! "email" = Some (JString v).
Proof.
  intros Hasc Hlast Ht3.
  destruct (run_burst newDate emailRegex keys st t v Hasc Hlast)
    as (st1 & Hrun & Hr & Hq & Hn & Hp & Hv).
  rewrite run_form_app, Hrun. simpl. unfold step.
  rewrite Hn. rewrite (proj2 (Z.ltb_ge t3 t)) by (unfold wait in Ht3; lia).
  unfold timerExpired. simpl. rewrite Hp, lookup_insert_eq.
  destruct (Z.leb_spec wait (t3 - t)); [| lia].
  eexists. split; [reflexivity |].
  rewrite lookups_send_get. unfold lookups. simpl. rewrite Hq.
  repeat split; auto. apply delete_insert_eq.
Qed.

Lemma burst_triggers_one_lookup_witness :
  ascending (now (init RegistrationForm)) Sample2.keys
  /\ last Sample2.keys = Some (900, "alice@b.com")
  /\ 900 + wait <= 1900
  /\ exists st',
       run Host.isoDate Host.zodEmail RegistrationForm
         (burst Sample2.keys ++ [(1900, TimerFires 0)]) (init RegistrationForm) = Some st'
       /\ lookups st' = ["alice@b.com"].
Proof.
  assert (ascending (now (init RegistrationForm)) Sample2.keys) as Hasc
    by (simpl; lia).
  split; [exact Hasc |]. split; [reflexivity |]. split; [unfold wait; lia |].
  destruct (burst_triggers_one_lookup Host.isoDate Host.zodEmail Sample2.keys
              (init RegistrationForm) 900 1900 "alice@b.com" Hasc eq_refl)
    as (st' & Hrun & Hl & _); [unfold wait; lia |].
  exists st'. split; [exact Hrun | exact Hl].
Defined.

(** ** Which lookups are sent *)



Lemma handleSubmit_requests (newDate : string -> JSDate) (emailRegex : string -> bool)
    (f : Form) (today : DateFields) (st : FormState) :
  (requests (handleSubmit newDate emailRegex f today st) = requests st
   \/ exists d, validate newDate emailRegex f today (values st) = Valid d
        /\ requests (handleSubmit newDate emailRegex f today st) = requests st ++ [POST_users d])
  /\ pending (handleSubmit newDate emailRegex f today st) = pending st.
Proof.
  unfold handleSubmit. destruct (validate _ _ _ _ _) as [d | errs]; [| auto].
  destruct f; simpl; eauto.
Qed.






(** ** What is posted *)

Lemma literal_true_accepts (emailRegex : string -> bool) (m : string) (x : JSValue) :
  Zod.issues (Zod.parse emailRegex (Zod.ZodEffects (Zod.ZodLiteral true) is_true m) x) = []
  <-> x = JBool true.
Proof.
  destruct x as [| | b | n | s]; simpl; try (split; discriminate).
  - destruct b; simpl; split; (reflexivity || discriminate).
  - destruct n; simpl; split; discriminate.
Qed.

(** A validated record has the terms accepted and holds declared fields
    only. *)
Lemma valid_record_terms (newDate : string -> JSDate) (emailRegex : string -> bool)
    (f : Form) (today : DateFields) (v d : FormValues) :
  validate newDate emailRegex f today v = Valid d ->
  read d "termsAccepted" = JBool true
  /\ forall k, is_Some (d !! k) -> k ∈ declared f.
Proof.
  intros Hvalid.
  assert (Forall (fun kt => Zod.issues (Zod.parse_key emailRegex v kt) = [])
            (schema_of newDate f today)) as Hall
    by (apply valid_iff_no_issue; eauto).
  rewrite Forall_forall in Hall.
  unfold validate, Zod.safeParse in Hvalid.
  destruct (Zod.object_status emailRegex (schema_of newDate f today) v); try discriminate.
  injection Hvalid as <-.
  assert (NoDup (schema_of newDate f today).*1) as Hnd
    by (rewrite schema_keys; apply declared_NoDup).
  split.
  - assert (exists t, ("termsAccepted", t) ∈ schema_of newDate f today
                      /\ forall x, Zod.issues (Zod.parse emailRegex t x) = [] -> x = JBool true)
      as (t & Hin & Htrue).
    { destruct f.
      - exists (Zod.ZodEffects Zod.ZodBoolean is_true "You must accept the terms and conditions").
        split; [unfold schema_of, schema; set_solver |].
        intros x Hx. now apply must_be_true_accepts in Hx.
      - exists (Zod.ZodEffects (Zod.ZodLiteral true) is_true
                  "You must accept the terms and conditions").
        split; [unfold schema_of, privacySettingsSchema; set_solver |].
        intros x Hx. now apply literal_true_accepts in Hx. }
    destruct (object_value_lookup emailRegex (schema_of newDate f today) v "termsAccepted" Hnd)
      as [Hlook _].
    unfold read. rewrite (Hlook _ Hin eq_refl).
    rewrite (schema_value newDate emailRegex f today v _ Hin)
      by (apply parse_valid_iff, Hall, Hin).
    simpl. rewrite (Htrue (read v "termsAccepted") (Hall _ Hin)). reflexivity.
  - intros k Hk. rewrite <- (schema_keys newDate f today).
    destruct (decide (k ∈ (schema_of newDate f today).*1)) as [Hin | Hout]; [exact Hin |].
    destruct (object_value_lookup emailRegex (schema_of newDate f today) v k Hnd) as [_ Hnone].
    rewrite (Hnone Hout) in Hk. now destruct Hk.
Qed.

Lemma step_posts (newDate : string -> JSDate) (emailRegex : string -> bool)
    (f : Form) (t : Z) (e : Event) (st st' : FormState) :
  step newDate emailRegex f t e st = Some st' ->
  posts st' = posts st
  \/ exists today d, validate newDate emailRegex f today (values st) = Valid d
       /\ posts st' = posts st ++ [d].
Proof.
  intros Hstep. unfold step in Hstep.
  destruct (t <? now st); [discriminate |].
  destruct e as [n x | email_ | fn | i r | today | i r |].
  - injection Hstep as <-. now left.
  - destruct f; injection Hstep as <-; now left.
  - unfold timerExpired in Hstep. simpl in Hstep.
    destruct (pending st !! fn) as [[lastCallTime lastArgs] |]; [| discriminate].
    destruct (wait <=? t - lastCallTime); [| discriminate].
    injection Hstep as <-. left. now rewrite posts_send_get.
  - destruct (is_lookup _ i); [| discriminate]. injection Hstep as <-. left.
    destruct r as [a |]; simpl; [| reflexivity]. unfold posts.
    now destruct (setEmailTaken_fields (negb (truthy a)) (settle i (set_now t st)))
      as (_ & _ & -> & _).
  - injection Hstep as <-.
    destruct (handleSubmit_requests newDate emailRegex f today (set_now t st))
      as [[Hreq | (d & Hv & Hreq)] _]; unfold posts; rewrite Hreq.
    + now left.
    + right. exists today, d. split; [exact Hv |]. now rewrite omap_app.
  - destruct (is_post _ i); [| discriminate]. injection Hstep as <-. left.
    destruct f, r; reflexivity.
  - injection Hstep as <-. now left.
Qed.

Lemma run_posts (newDate : string -> JSDate) (emailRegex : string -> bool)
    (f : Form) (trace : list (Z * Event)) (st st' : FormState) :
  run newDate emailRegex f trace st = Some st' ->
  (forall d, d ∈ posts st -> exists today v, validate newDate emailRegex f today v = Valid d) ->
  forall d, d ∈ posts st' -> exists today v, validate newDate emailRegex f today v = Valid d.
Proof.
  revert st. induction trace as [| [t e] trace IH]; intros st Hrun Hinv; simpl in Hrun.
  - now injection Hrun as <-.
  - destruct (step newDate emailRegex f t e st) as [st1 |] eqn:Hstep; [| discriminate].
    apply (IH st1 Hrun). intros d Hd.
    destruct (step_posts newDate emailRegex f t e st st1 Hstep)
      as [Hsame | (today & d' & Hv & Hmore)].
    + rewrite Hsame in Hd. auto.
    + rewrite Hmore in Hd. apply elem_of_app in Hd as [Hd | Hd]; [auto |].
      apply list_elem_of_singleton in Hd as ->. eauto.
Qed.

(** X15: whatever happens in a form, every record it posts came out of the
    validator as valid: it has [termsAccepted] true and holds no field the
    schema does not declare. *)
Theorem only_validated_records_are_posted
    (newDate : string -> JSDate) (emailRegex : string -> bool)
    (f : Form) (trace : list (Z * Event)) (st : FormState) (d : FormValues) :
  run newDate emailRegex f trace (init f) = Some st ->
  d ∈ posts st ->
  (exists today v, validate newDate emailRegex f today v = Valid d)
  /\ read d "termsAccepted" = JBool true
  /\ forall k, is_Some (d !! k) -> k ∈ declared f.
Proof.
  intros Hrun Hd.
  destruct (run_posts newDate emailRegex f trace (init f) st Hrun) with (d := d)
    as (today & v & Hv); [intros d' Hd'; inversion Hd' | exact Hd |].
  split; [eauto |]. exact (valid_record_terms newDate emailRegex f today v d Hv).
Qed.

Lemma only_validated_records_are_posted_witness :
  exists st d,
    run Host.isoDate Host.zodEmail RegistrationForm (Sample.registration_trace Rejected)
      (init RegistrationForm) = Some st
    /\ d ∈ posts st
    /\ read d "termsAccepted" = JBool true.
Proof.
  destruct (run Host.isoDate Host.zodEmail RegistrationForm (Sample.registration_trace Rejected)
              (init RegistrationForm)) as [st |] eqn:Hrun; [| vm_compute in Hrun; discriminate].
  assert ((fun st => length (posts st)) <$>
            run Host.isoDate Host.zodEmail RegistrationForm
              (Sample.registration_trace Rejected) (init RegistrationForm)
          = Some 1%nat) as Hlen by (vm_compute; reflexivity).
  rewrite Hrun in Hlen. simpl in Hlen. injection Hlen as Hlen.
  destruct (posts st) as [| d ds] eqn:Hposts; [discriminate |].
  exists st, d. split; [reflexivity |].
  assert (d ∈ posts st) as Hd by (rewrite Hposts; left).
  split; [exact Hd |].
  apply (only_validated_records_are_posted Host.isoDate Host.zodEmail RegistrationForm
           (Sample.registration_trace Rejected) st d Hrun Hd).
Defined.

(** ** The availability paragraph *)

Lemma handleSubmit_emailTaken (newDate : string -> JSDate) (emailRegex : string -> bool)
    (f : Form) (today : DateFields) (st : FormState) :
  emailTaken (handleSubmit newDate emailRegex f today st) = emailTaken st.
Proof.
  unfold handleSubmit. destruct (validate _ _ _ _ _); [| reflexivity]. now destruct f.
Qed.

Lemma step_emailTaken (newDate : string -> JSDate) (emailRegex : string -> bool)
    (f : Form) (t : Z) (e : Event) (st st' : FormState) :
  step newDate emailRegex f t e st = Some st' ->
  emailTaken st' = emailTaken st
  \/ exists i isAvailable,
       e = LookupSettles i (Resolved isAvailable)
       /\ emailTaken st' = Some (negb (truthy isAvailable)).
Proof.
  intros Hstep. unfold step in Hstep.
  destruct (t <? now st); [discriminate |].
  destruct e as [n x | email_ | fn | i r | today | i r |].
  - injection Hstep as <-. now left.
  - destruct f; injection Hstep as <-; now left.
  - unfold timerExpired in Hstep. simpl in Hstep.
    destruct (pending st !! fn) as [[lastCallTime lastArgs] |]; [| discriminate].
    destruct (wait <=? t - lastCallTime); [| discriminate].
    injection Hstep as <-. now left.
  - destruct (is_lookup _ i); [| discriminate]. injection Hstep as <-.
    destruct r as [a |]; simpl; [| now left].
    right. exists i, a. split; [reflexivity |].
    now destruct (setEmailTaken_fields (negb (truthy a)) (settle i (set_now t st)))
      as (_ & _ & _ & ->).
  - injection Hstep as <-. left. now rewrite handleSubmit_emailTaken.
  - destruct (is_post _ i); [| discriminate]. injection Hstep as <-. left.
    destruct f, r; reflexivity.
  - injection Hstep as <-. now left.
Qed.

(** X16: once a lookup has been answered, the paragraph on the availability
    of the email never leaves the page: nothing sets [emailTaken] back to
    [null], neither a change of the email, nor a failed lookup, nor a
    submission, nor [reset]; only the answer to another lookup changes what
    it says. *)
Theorem availability_message_stays (newDate : string -> JSDate) (emailRegex : string -> bool)
    (f : Form) (trace : list (Z * Event)) (st st' : FormState) :
  run newDate emailRegex f trace st = Some st' ->
  is_Some (availabilityMessage (emailTaken st)) ->
  is_Some (availabilityMessage (emailTaken st'))
  /\ ((forall i a, (LookupSettles i (Resolved a)) ∉ trace.*2) ->
      availabilityMessage (emailTaken st') = availabilityMessage (emailTaken st)).
Proof.
  revert st. induction trace as [| [t e] trace IH]; intros st Hrun Hshown; simpl in Hrun.
  - injection Hrun as <-. auto.
  - destruct (step newDate emailRegex f t e st) as [st1 |] eqn:Hstep; [| discriminate].
    destruct (step_emailTaken newDate emailRegex f t e st st1 Hstep)
      as [Hsame | (i & a & -> & Hset)].
    + destruct (IH st1 Hrun) as [Hs Hk]; [now rewrite Hsame |].
      split; [exact Hs |]. intros Hno. rewrite Hk, Hsame; [reflexivity |].
      intros i a Hin. apply (Hno i a). simpl. now right.
    + destruct (IH st1 Hrun) as [Hs _].
      { rewrite Hset. destruct (negb (truthy a)); simpl; eauto. }
      split; [exact Hs |]. intros Hno. exfalso. apply (Hno i a). simpl. left.
Qed.

Lemma availability_message_stays_witness :
  exists st st',
    run Host.isoDate Host.zodEmail RegistrationForm Sample.stale_trace
      (init RegistrationForm) = Some st
    /\ run Host.isoDate Host.zodEmail RegistrationForm
         [(3000, EmailInput ""); (3100, Reset)] st = Some st'
    /\ availabilityMessage (emailTaken st') = Some ("text-red-500", "Email is already taken")
    /\ read (values st') "email" = JString "".
Proof.
  destruct (run Host.isoDate Host.zodEmail RegistrationForm Sample.stale_trace
              (init RegistrationForm)) as [st |] eqn:Hrun; [| vm_compute in Hrun; discriminate].
  assert (emailTaken <$> run Host.isoDate Host.zodEmail RegistrationForm Sample.stale_trace
                           (init RegistrationForm) = Some (Some true)) as Htaken
    by (vm_compute; reflexivity).
  assert ((fun st => now st) <$> run Host.isoDate Host.zodEmail RegistrationForm
                           Sample.stale_trace (init RegistrationForm) = Some 2400) as Hnow
    by (vm_compute; reflexivity).
  rewrite Hrun in Htaken, Hnow. simpl in Htaken, Hnow.
  injection Htaken as Htaken. injection Hnow as Hnow.
  destruct (run Host.isoDate Host.zodEmail RegistrationForm
              [(3000, EmailInput ""); (3100, Reset)] st) as [st' |] eqn:Hrun2.
  - exists st, st'. split; [reflexivity |]. split; [exact Hrun2 |].
    destruct (availability_message_stays Host.isoDate Host.zodEmail RegistrationForm
                [(3000, EmailInput ""); (3100, Reset)] st st' Hrun2) as [_ Hkeep].
    + rewrite Htaken. simpl. eauto.
    + split.
      * rewrite Hkeep, Htaken; [reflexivity |].
        intros i a Hin. simpl in Hin. set_solver.
      * simpl in Hrun2. unfold step in Hrun2. rewrite Hnow in Hrun2. simpl in Hrun2.
        injection Hrun2 as <-. reflexivity.
  - simpl in Hrun2. unfold step in Hrun2. rewrite Hnow in Hrun2. simpl in Hrun2. discriminate.
Defined.
